(** * poof-mcp: Terminal Automation & Polling Engine

    A shallow embedding of the TypeScript sources of poof-mcp:
    - [src/unnamed/part_002] (applescript driver): [sendKeystroke],
      [typeText], the [KEY_CODES] table;
    - [src/unnamed/part_001] (zmx adapter): [listSessions],
      [killSession], [killAllSessions];
    - [src/src/mcp/server.ts] ([TerminalManager]): session state,
      [sendKeys], [killSession], [killAllSessions], [getStatus],
      [waitForText], [waitForStable].

    Strings are Latin-1 code units ([ascii] read as bytes 0..255), which
    is how JavaScript sees them as long as every code unit is below 256. *)

From Stdlib Require Import String Ascii List ZArith Bool Lia.
Import ListNotations.
Open Scope bool_scope.

(* ------------------------------------------------------------------ *)
(** ** JavaScript string primitives *)

Module JS.

(** [String.prototype.toLowerCase] on Latin-1 code units:
    A-Z and U+00C0..U+00DE (except U+00D7) move up by 0x20.  On this
    range it maps each character to one character; beyond it the
    JavaScript mapping can change the length (U+0130 becomes
    "i" followed by U+0307), which strings of this model cannot hold. *)
Definition lower_ascii (c : ascii) : ascii :=
  let n := nat_of_ascii c in
  if ((65 <=? n) && (n <=? 90)) || ((192 <=? n) && (n <=? 222) && negb (n =? 215))
  then ascii_of_nat (n + 32) else c.

Fixpoint toLowerCase (s : string) : string :=
  match s with
  | EmptyString => EmptyString
  | String c r => String (lower_ascii c) (toLowerCase r)
  end.

(** [s.includes(sub)]: [sub] occurs in [s] at some index. *)
Fixpoint includes (s sub : string) : bool :=
  prefix sub s ||
  match s with
  | EmptyString => false
  | String _ r => includes r sub
  end.

(** [s.split(sep)] for a one-character separator. *)
Fixpoint split (sep : ascii) (s : string) : list string :=
  match s with
  | EmptyString => [EmptyString]
  | String c r =>
      if Ascii.eqb c sep then EmptyString :: split sep r
      else match split sep r with
           | [] => [String c EmptyString]
           | p :: ps => String c p :: ps
           end
  end.

(** White space as [String.prototype.trim] and the regex class [\s]
    see it in the Latin-1 range: TAB, LF, VT, FF, CR, SPACE, NBSP. *)
Definition is_ws (c : ascii) : bool :=
  let n := nat_of_ascii c in
  ((9 <=? n) && (n <=? 13)) || (n =? 32) || (n =? 160).

Fixpoint trimStart (s : string) : string :=
  match s with
  | EmptyString => EmptyString
  | String c r => if is_ws c then trimStart r else s
  end.

Fixpoint trimEnd (s : string) : string :=
  match s with
  | EmptyString => EmptyString
  | String c r =>
      let r' := trimEnd r in
      if String.eqb r' EmptyString && is_ws c then EmptyString else String c r'
  end.

Definition trim (s : string) : string := trimEnd (trimStart s).

Definition is_digit (c : ascii) : bool :=
  let n := nat_of_ascii c in (48 <=? n) && (n <=? 57).

Fixpoint digits_value (acc : Z) (s : string) : Z :=
  match s with
  | EmptyString => acc
  | String c r => digits_value (acc * 10 + Z.of_nat (nat_of_ascii c - 48)) r
  end.

(** [parseInt(d, 10)] on a string made of decimal digits only, as an
    exact integer: the same as the double [parseInt] returns as long as
    the value is at most 2^53 (above that [parseInt] rounds). *)
Definition parseDigits (s : string) : Z := digits_value 0 s.

Fixpoint zDigits (fuel : nat) (n : Z) (acc : string) : string :=
  match fuel with
  | O => acc
  | S f =>
      let acc' := String (ascii_of_nat (48 + Z.to_nat (n mod 10))) acc in
      if (n <? 10)%Z then acc' else zDigits f (n / 10)%Z acc'
  end.

(** [`${n}`] for an integer [n]. *)
Definition zToString (z : Z) : string :=
  match z with
  | Z0 => "0"
  | Zpos p => zDigits (Pos.size_nat p) (Zpos p) EmptyString
  | Zneg p => String "-" (zDigits (Pos.size_nat p) (Zpos p) EmptyString)
  end.

End JS.

Import JS.

(* ------------------------------------------------------------------ *)
(** ** Key encoder: the resolution logic of [sendKeystroke] *)

Module Keys.

(** [KEY_CODES] (part_002), in source order: the object's own entries. *)
Definition KEY_CODES : list (string * Z) :=
  [("enter", 36); ("return", 36); ("tab", 48); ("escape", 53); ("esc", 53);
   ("space", 49); ("delete", 51); ("backspace", 51); ("up", 126);
   ("down", 125); ("left", 123); ("right", 124); ("home", 115);
   ("end", 119); ("pageup", 116); ("pagedown", 121); ("f1", 122);
   ("f2", 120); ("f3", 99); ("f4", 118); ("f5", 96); ("f6", 97);
   ("f7", 98); ("f8", 100); ("f9", 101); ("f10", 109); ("f11", 103);
   ("f12", 111)]%string%Z.

(** [KEY_CODES] is a plain object literal, so it also inherits the
    members of [Object.prototype]; each is given with the text
    [`${value}`] makes of it. *)
Definition OBJECT_PROTOTYPE : list (string * string) :=
  [("constructor", "function Object() { [native code] }");
   ("__defineGetter__", "function __defineGetter__() { [native code] }");
   ("__defineSetter__", "function __defineSetter__() { [native code] }");
   ("hasOwnProperty", "function hasOwnProperty() { [native code] }");
   ("__lookupGetter__", "function __lookupGetter__() { [native code] }");
   ("__lookupSetter__", "function __lookupSetter__() { [native code] }");
   ("isPrototypeOf", "function isPrototypeOf() { [native code] }");
   ("propertyIsEnumerable", "function propertyIsEnumerable() { [native code] }");
   ("toString", "function toString() { [native code] }");
   ("valueOf", "function valueOf() { [native code] }");
   ("__proto__", "[object Object]");
   ("toLocaleString", "function toLocaleString() { [native code] }")]%string.

Fixpoint lookup {A : Type} (k : string) (t : list (string * A)) : option A :=
  match t with
  | [] => None
  | (k', v) :: t' => if String.eqb k k' then Some v else lookup k t'
  end.

(** What [KEY_CODES[k]] reads: an own entry (a number), else an
    inherited member (not [undefined], so taken as a key code), else
    [undefined]. *)
Inductive KeyCodeValue :=
  | OwnCode (code : Z)
  | Inherited (text : string).

Definition keyCode (k : string) : option KeyCodeValue :=
  match lookup k KEY_CODES with
  | Some v => Some (OwnCode v)
  | None => option_map Inherited (lookup k OBJECT_PROTOTYPE)
  end.

Inductive Modifier := ModControl | ModOption | ModShift | ModCommand.

(** The [switch (modifier)] of [sendKeystroke]. *)
Definition modifierClause (m : string) : option Modifier :=
  if String.eqb m "ctrl" || String.eqb m "control" then Some ModControl
  else if String.eqb m "alt" || String.eqb m "option" then Some ModOption
  else if String.eqb m "shift" then Some ModShift
  else if String.eqb m "cmd" || String.eqb m "command" then Some ModCommand
  else None.

(** The System Events command a key resolves to. *)
Inductive KeyEvent :=
  | KeyCode (code : Z)                          (* key code N *)
  | KeyCodeMod (code : Z) (m : Modifier)        (* key code N using M down *)
  | KeyCodeInherited (text : string)             (* key code TEXT *)
  | KeyCodeInheritedMod (text : string) (m : Modifier)
                                                (* key code TEXT using M down *)
  | KeystrokeMod (k : string) (m : Modifier)    (* keystroke "k" using M down *)
  | TypeLiteral (text : string).                (* typeText(key) *)

(** Errors thrown by the code: [new Error("Unknown modifier: ...")],
    [new Error("Unknown key: ...")], and a failed [execSync]. *)
Inductive Exn :=
  | UnknownModifier (m : string)
  | UnknownKey (k : string)
  | ExecFailed (status : Z) (stderr : string).

Definition plus_char : ascii := "+"%char.

(** [sendKeystroke(key)] up to the script it runs: [inr ev] when the
    script for [ev] is run, [inl e] when [e] is thrown. *)
Definition resolveKey (key : string) : Exn + KeyEvent :=
  let lowerKey := toLowerCase key in
  if includes key "+" then
    let parts := split plus_char key in
    let modifier := toLowerCase (nth 0 parts EmptyString) in
    let mainKey := nth 1 parts EmptyString in
    match modifierClause modifier with
    | None => inl (UnknownModifier modifier)
    | Some m =>
        match keyCode (toLowerCase mainKey) with
        | Some (OwnCode kc) => inr (KeyCodeMod kc m)
        | Some (Inherited t) => inr (KeyCodeInheritedMod t m)
        | None =>
            if Nat.eqb (String.length mainKey) 1 then inr (KeystrokeMod mainKey m)
            else inl (UnknownKey mainKey)
        end
    end
  else
    match keyCode lowerKey with
    | Some (OwnCode kc) => inr (KeyCode kc)
    | Some (Inherited t) => inr (KeyCodeInherited t)
    | None =>
        if Nat.eqb (String.length key) 1 then inr (TypeLiteral key)
        else inl (UnknownKey key)
    end.

(** Lower-casing the text carried by a resolution result. *)
Definition lowerResult (r : Exn + KeyEvent) : Exn + KeyEvent :=
  match r with
  | inl (UnknownModifier m) => inl (UnknownModifier (toLowerCase m))
  | inl (UnknownKey k) => inl (UnknownKey (toLowerCase k))
  | inl e => inl e
  | inr (KeystrokeMod k m) => inr (KeystrokeMod (toLowerCase k) m)
  | inr (TypeLiteral t) => inr (TypeLiteral (toLowerCase t))
  | inr ev => inr ev
  end.

End Keys.

Import Keys.

(* ------------------------------------------------------------------ *)
(** ** Registry report parsing ([zmx.listSessions], part_001) *)

Module Zmx.

(** [ZmxSession] of [types]: optional fields as [option]. *)
Record ZmxSession := mkSession {
  name : string;
  pid : option Z;
  clients : option Z
}.

Definition newline : ascii := "010"%char.

Fixpoint take_while (p : ascii -> bool) (s : string) : string :=
  match s with
  | EmptyString => EmptyString
  | String c r => if p c then String c (take_while p r) else EmptyString
  end.

(** First match of the regex [/KEY(C+)/] in a line, giving the capture
    group: the leftmost index where [KEY] starts and is followed by at
    least one character of class [C]; the group is greedy. *)
Fixpoint match_capture (key : string) (cls : ascii -> bool) (s : string)
  : option string :=
  match s with
  | EmptyString => None
  | String _ r =>
      let v := take_while cls (substring (String.length key) (String.length s) s) in
      if prefix key s && negb (String.eqb v EmptyString) then Some v
      else match_capture key cls r
  end.

Definition not_ws (c : ascii) : bool := negb (is_ws c).

(** The [.map] callback of [listSessions]. *)
Definition parseLine (line : string) : ZmxSession :=
  let nameMatch := match_capture "session_name=" not_ws line in
  let pidMatch := match_capture "pid=" is_digit line in
  let clientsMatch := match_capture "clients=" is_digit line in
  {| name := match nameMatch with Some v => v | None => trim line end;
     pid := option_map parseDigits pidMatch;
     clients := option_map parseDigits clientsMatch |}.

(** [listSessions] on the standard output of [zmx list]. *)
Definition parseListOutput (output : string) : list ZmxSession :=
  let trimmed := trim output in
  if prefix "no sessions found" trimmed then []
  else map parseLine
         (filter (fun line => negb (String.eqb line EmptyString))
                 (split newline trimmed)).

End Zmx.

Import Zmx.

(* ------------------------------------------------------------------ *)
(** ** Escaping of [typeText] and AppleScript string literals *)

Module Escape.

Definition bs : ascii := "\"%char.
Definition dq : ascii := "034"%char.

(** [s.replace(/c/g, rep)]. *)
Fixpoint replace_all (c : ascii) (rep : string) (s : string) : string :=
  match s with
  | EmptyString => EmptyString
  | String d r =>
      if Ascii.eqb d c then rep ++ replace_all c rep r
      else String d (replace_all c rep r)
  end.

(** [text.replace(/\\/g, "\\\\").replace(/"/g, '\\"')] in [typeText]. *)
Definition escapeText (text : string) : string :=
  replace_all dq (String bs (String dq EmptyString))
    (replace_all bs (String bs (String bs EmptyString)) text).

(** The scripting layer's reading of a string literal, from the opening
    quote excluded: AppleScript ends the literal at an unescaped double
    quote and knows the escapes backslash-backslash, backslash-quote,
    backslash-n, backslash-r and backslash-t; any other escape is a
    compile error ([None]), as is a literal left open.  Returns the
    decoded text and what follows the closing quote. *)
Definition unescape (d : ascii) : option ascii :=
  if Ascii.eqb d bs then Some bs
  else if Ascii.eqb d dq then Some dq
  else if Ascii.eqb d "n"%char then Some "010"%char
  else if Ascii.eqb d "r"%char then Some "013"%char
  else if Ascii.eqb d "t"%char then Some "009"%char
  else None.

Fixpoint decodeLiteral (s : string) : option (string * string) :=
  match s with
  | EmptyString => None
  | String c r =>
      if Ascii.eqb c dq then Some (EmptyString, r)
      else if Ascii.eqb c bs then
        match r with
        | EmptyString => None
        | String d r' =>
            match unescape d, decodeLiteral r' with
            | Some e, Some (v, rest) => Some (String e v, rest)
            | _, _ => None
            end
        end
      else
        match decodeLiteral r with
        | Some (v, rest) => Some (String c v, rest)
        | None => None
        end
  end.

(** The escape of one character. *)
Definition escapeChar (c : ascii) : string :=
  if Ascii.eqb c bs then String bs (String bs EmptyString)
  else if Ascii.eqb c dq then String bs (String dq EmptyString)
  else String c EmptyString.

Definition squote : ascii := "'"%char.

(** [runAppleScript]: [osascript -e '${script.replace(/'/g, "'\"'\"'")}'],
    the quoted word of that command line. *)
Definition shellQuote (script : string) : string :=
  String squote
    (replace_all squote
       (String squote (String dq (String squote (String dq (String squote EmptyString)))))
       script ++ String squote EmptyString).

(** How a POSIX shell reads one word: inside single quotes every
    character is literal up to the next single quote; inside double
    quotes a backslash escapes [$], backquote, double quote, backslash
    and newline, and [$] or a backquote starts an expansion (not modelled:
    [None]); outside quotes a backslash escapes the next character, and a
    blank, an operator or an expansion character does not belong to a
    plain word ([None]). *)
Inductive ShMode := Unquoted | InSingle | InDouble.

Definition sh_special (c : ascii) : bool :=
  let n := nat_of_ascii c in
  is_ws c || (n =? 36) || (n =? 96) || (n =? 59) || (n =? 38) || (n =? 124)
  || (n =? 60) || (n =? 62) || (n =? 40) || (n =? 41) || (n =? 42)
  || (n =? 63) || (n =? 91) || (n =? 35) || (n =? 126).

Definition dq_escapable (c : ascii) : bool :=
  let n := nat_of_ascii c in
  (n =? 36) || (n =? 96) || (n =? 34) || (n =? 92) || (n =? 10).

Fixpoint shRead (mode : ShMode) (s : string) : option string :=
  match s with
  | EmptyString => match mode with Unquoted => Some EmptyString | _ => None end
  | String c r =>
      match mode with
      | InSingle =>
          if Ascii.eqb c squote then shRead Unquoted r
          else option_map (String c) (shRead InSingle r)
      | InDouble =>
          if Ascii.eqb c dq then shRead Unquoted r
          else if Ascii.eqb c bs then
            match r with
            | EmptyString => None
            | String d r' =>
                if dq_escapable d then
                  if Ascii.eqb d "010"%char then shRead InDouble r'
                  else option_map (String d) (shRead InDouble r')
                else option_map (String c) (shRead InDouble r)
            end
          else if (nat_of_ascii c =? 36) || (nat_of_ascii c =? 96) then None
          else option_map (String c) (shRead InDouble r)
      | Unquoted =>
          if Ascii.eqb c squote then shRead InSingle r
          else if Ascii.eqb c dq then shRead InDouble r
          else if Ascii.eqb c bs then
            match r with
            | EmptyString => None
            | String d r' => option_map (String d) (shRead Unquoted r')
            end
          else if sh_special c then None
          else option_map (String c) (shRead Unquoted r)
      end
  end.

End Escape.

Import Escape.

(* ------------------------------------------------------------------ *)
(** ** External commands, state and the Manager *)

Module Manager.

(** A JavaScript number as [parseInt] can produce it. *)
Inductive JsNum := JNum (z : Z) | JNaN.

(** The external commands the code runs through [execSync]: [zmx]
    invocations and AppleScript programs (shown by what they do). *)
Inductive Cmd :=
  | ZmxList
  | ZmxKill (session : string)
  | OsaActivate
  | OsaOpen (session : string)           (* do script "zmx attach NAME" *)
  | OsaFrontWindowId
  | OsaKeyCode (code : Z) (m : option Modifier)
  | OsaKeyCodeText (text : string) (m : option Modifier)
                                         (* key code TEXT, TEXT not a number *)
  | OsaKeystroke (literal : string) (m : option Modifier)
  | OsaClose.

Inductive ExecResult :=
  | ExecOk (stdout : string)
  | ExecErr (status : Z) (stderr : string).

(** [TerminalManager]'s fields, plus the log of the commands run. *)
Record St := mkSt {
  currentSession : option string;
  windowId : option JsNum;
  history : list Cmd
}.

Definition set_session (s : option string) (w : option JsNum) (st : St) : St :=
  mkSt s w (history st).

(** A state and exception monad: a thrown [Exn] propagates. *)
Definition M (A : Type) : Type := St -> (Exn + A) * St.

Definition ret {A} (a : A) : M A := fun st => (inr a, st).
Definition throw {A} (e : Exn) : M A := fun st => (inl e, st).
Definition bind {A B} (m : M A) (f : A -> M B) : M B :=
  fun st => match m st with
            | (inl e, st') => (inl e, st')
            | (inr a, st') => f a st'
            end.
Definition get : M St := fun st => (inr st, st).
Definition put (st : St) : M unit := fun _ => (inr tt, st).

Notation "x <- m ;; k" := (bind m (fun x => k))
  (at level 61, m at next level, right associativity).

(** [for (const x of xs) f(x)]. *)
Fixpoint forEach {A} (f : A -> M unit) (xs : list A) : M unit :=
  match xs with
  | [] => ret tt
  | x :: xs' => _ <- f x ;; forEach f xs'
  end.

(** [parseInt(s, 10)]: leading white space, a sign, then digits. *)
Definition parseInt (s : string) : JsNum :=
  let s1 := trimStart s in
  let '(sign, s2) :=
    match s1 with
    | String c r => if Ascii.eqb c "-"%char then ((-1)%Z, r)
                    else if Ascii.eqb c "+"%char then (1%Z, r) else (1%Z, s1)
    | EmptyString => (1%Z, s1)
    end in
  let ds := take_while is_digit s2 in
  if String.eqb ds EmptyString then JNaN else JNum (sign * parseDigits ds)%Z.

(** JavaScript truthiness of [this.windowId]. *)
Definition truthy (w : option JsNum) : bool :=
  match w with
  | Some (JNum z) => negb (Z.eqb z 0)
  | _ => false
  end.

(** [this.currentSession === sessionName]. *)
Definition is_current (cur : option string) (sessionName : string) : bool :=
  match cur with
  | Some s => String.eqb s sessionName
  | None => false
  end.

Record SessionStatus := mkStatus {
  sessionName : option string;
  isActive : bool;
  statusWindowId : option JsNum;
  sessions : list ZmxSession
}.

Section Ops.

(** The outside world: the answer of [execSync] to a command, given the
    commands run before it. *)
Variable respond : list Cmd -> Cmd -> ExecResult.

Definition exec (c : Cmd) : M string :=
  fun st =>
    let st' := mkSt (currentSession st) (windowId st) (history st ++ [c]) in
    match respond (history st) c with
    | ExecOk out => (inr (trim out), st')
    | ExecErr status err => (inl (ExecFailed status err), st')
    end.

(** [zmx.listSessions]: a failure with exit status 1 means no sessions. *)
Definition zmx_listSessions : M (list ZmxSession) :=
  fun st =>
    let st' := mkSt (currentSession st) (windowId st) (history st ++ [ZmxList]) in
    match respond (history st) ZmxList with
    | ExecOk out => (inr (parseListOutput out), st')
    | ExecErr 1 _ => (inr [], st')
    | ExecErr status err => (inl (ExecFailed status err), st')
    end.

Definition zmx_killSession (sessionName : string) : M unit :=
  _ <- exec (ZmxKill sessionName) ;; ret tt.

Definition zmx_killAllSessions : M nat :=
  sessions <- zmx_listSessions ;;
  _ <- forEach (fun s => _ <- exec (ZmxKill (name s)) ;; ret tt) sessions ;;
  ret (List.length sessions).

(** [applescript.openTerminalWithSession]. *)
Definition openTerminalWithSession (sessionName : string) : M JsNum :=
  out <- exec (OsaOpen sessionName) ;; ret (parseInt out).

(** [applescript.getTerminalWindowId]: errors are caught as [null]. *)
Definition getTerminalWindowId : M (option JsNum) :=
  fun st =>
    match exec OsaFrontWindowId st with
    | (inl _, st') => (inr None, st')
    | (inr out, st') =>
        match parseInt out with
        | JNum id => if (0 <? id)%Z then (inr (Some (JNum id)), st')
                     else (inr None, st')
        | JNaN => (inr None, st')
        end
    end.

Definition typeText (text : string) : M unit :=
  _ <- exec (OsaKeystroke (escapeText text) None) ;; ret tt.

Definition sendKeystroke (key : string) : M unit :=
  match resolveKey key with
  | inl e => throw e
  | inr (KeyCode kc) => _ <- exec (OsaKeyCode kc None) ;; ret tt
  | inr (KeyCodeMod kc m) => _ <- exec (OsaKeyCode kc (Some m)) ;; ret tt
  | inr (KeyCodeInherited t) => _ <- exec (OsaKeyCodeText t None) ;; ret tt
  | inr (KeyCodeInheritedMod t m) => _ <- exec (OsaKeyCodeText t (Some m)) ;; ret tt
  | inr (KeystrokeMod k m) => _ <- exec (OsaKeystroke k (Some m)) ;; ret tt
  | inr (TypeLiteral t) => typeText t
  end.

(** [TerminalManager] methods. *)
Definition createSession (sessionName : string) : M (string * JsNum) :=
  wid <- openTerminalWithSession sessionName ;;
  st <- get ;;
  _ <- put (set_session (Some sessionName) (Some wid) st) ;;
  ret (sessionName, wid).

Definition killSession (sessionName : string) : M unit :=
  _ <- zmx_killSession sessionName ;;
  st <- get ;;
  if is_current (currentSession st) sessionName
  then put (set_session None None st)
  else ret tt.

Definition killAllSessions : M nat :=
  count <- zmx_killAllSessions ;;
  st <- get ;;
  _ <- put (set_session None None st) ;;
  ret count.

Definition sendKeys (keys : list string) : M nat :=
  _ <- exec OsaActivate ;;
  _ <- forEach sendKeystroke keys ;;
  ret (List.length keys).

Definition getStatus : M SessionStatus :=
  st0 <- get ;;
  _ <- (if truthy (windowId st0) then ret tt
        else w <- getTerminalWindowId ;;
             st <- get ;;
             put (set_session (currentSession st) w st)) ;;
  st <- get ;;
  ss <- zmx_listSessions ;;
  ret {| sessionName := currentSession st;
         isActive := match currentSession st with Some _ => true | None => false end;
         statusWindowId := windowId st;
         sessions := ss |}.

Definition close : M unit :=
  st0 <- get ;;
  _ <- (if truthy (windowId st0) then _ <- exec OsaClose ;; ret tt else ret tt) ;;
  st <- get ;;
  put (set_session None None st).

(** [TerminalManager.typeText]. *)
Definition managerTypeText (text : string) : M nat :=
  _ <- exec OsaActivate ;;
  _ <- typeText text ;;
  ret (String.length text).

(** [try { zmx.killSession(name) } catch { }]. *)
Definition killSessionQuietly (sessionName : string) : M unit :=
  fun st => match zmx_killSession sessionName st with
            | (_, st') => (inr tt, st')
            end.

(** JavaScript truthiness of a string. *)
Definition truthy_str (s : string) : bool := negb (String.eqb s EmptyString).

(** [TerminalManager.restartTerminal(command)]; [nowMs] is the value of
    [Date.now()] used to name a new session.  The 500 ms busy-wait before
    typing runs no command. *)
Definition restartTerminal (nowMs : Z) (command : option string) : M (string * JsNum) :=
  st0 <- get ;;
  _ <- (if truthy (windowId st0) then _ <- exec OsaClose ;; ret tt else ret tt) ;;
  st1 <- get ;;
  _ <- (match currentSession st1 with
        | Some cur => if truthy_str cur then killSessionQuietly cur else ret tt
        | None => ret tt
        end) ;;
  let fresh := ("poof-" ++ zToString nowMs)%string in
  let hasCommand := match command with Some c => truthy_str c | None => false end in
  let sessionName :=
    if hasCommand then fresh
    else match currentSession st1 with
         | Some cur => if truthy_str cur then cur else fresh
         | None => fresh
         end in
  wid <- openTerminalWithSession sessionName ;;
  st2 <- get ;;
  _ <- put (set_session (Some sessionName) (Some wid) st2) ;;
  _ <- (match command with
        | Some c => if truthy_str c then _ <- typeText c ;; sendKeystroke "enter"
                    else ret tt
        | None => ret tt
        end) ;;
  ret (sessionName, wid).

End Ops.

(** The AppleScript command [sendKeystroke] runs for a resolved key. *)
Definition keyCmd (ev : KeyEvent) : Cmd :=
  match ev with
  | KeyCode kc => OsaKeyCode kc None
  | KeyCodeMod kc m => OsaKeyCode kc (Some m)
  | KeyCodeInherited t => OsaKeyCodeText t None
  | KeyCodeInheritedMod t m => OsaKeyCodeText t (Some m)
  | KeystrokeMod k m => OsaKeystroke k (Some m)
  | TypeLiteral t => OsaKeystroke (escapeText t) None
  end.

(** The commands [sendKeystroke] runs for the keys of a list that all
    resolve. *)
Fixpoint keyCmds (keys : list string) : list Cmd :=
  match keys with
  | [] => []
  | k :: ks =>
      match resolveKey k with
      | inr ev => keyCmd ev :: keyCmds ks
      | inl _ => []
      end
  end.

(** A key that [resolveKey] accepts. *)
Definition resolves (key : string) : Prop := exists ev, resolveKey key = inr ev.

End Manager.

(* ------------------------------------------------------------------ *)
(** ** Polling loops of [TerminalManager] *)

Module Poll.

Definition pollInterval : Z := 100.

(** [Date.now()] and the number of screen samples taken so far.
    Sampling is taken as instantaneous: the clock moves during the
    busy-wait between two samples. *)
Record Clock := mkClock { now : Z; reads : nat }.

Section Loops.

(** The successive answers of [getScreenText()]. *)
Variable screen : nat -> string.

Definition getScreenText (c : Clock) : string * Clock :=
  (screen (reads c), mkClock (now c) (S (reads c))).

(** [const sleepUntil = Date.now() + pollInterval;
     while (Date.now() < sleepUntil) {}] *)
Definition busyWait (c : Clock) : Clock :=
  let sleepUntil := (now c + pollInterval)%Z in
  mkClock (Z.max (now c) sleepUntil) (reads c).

(** The [while] loop of [waitForText]; [fuel] bounds the iterations. *)
Fixpoint textLoop (fuel : nat) (text : string) (startTime timeoutMs : Z)
    (c : Clock) : option ((bool * Z) * Clock) :=
  match fuel with
  | O => None
  | S f =>
      if (now c - startTime <? timeoutMs)%Z then
        let '(content, c1) := getScreenText c in
        if includes content text then Some ((true, now c1 - startTime)%Z, c1)
        else textLoop f text startTime timeoutMs (busyWait c1)
      else Some ((false, now c - startTime)%Z, c)
  end.

(** [waitForText(text, timeoutMs)]: result [(found, elapsedMs)]. *)
Definition waitForText (text : string) (timeoutMs : Z) (c0 : Clock)
  : option ((bool * Z) * Clock) :=
  textLoop (S (Z.to_nat timeoutMs)) text (now c0) timeoutMs c0.

(** The [while] loop of [waitForStable]. *)
Fixpoint stableLoop (fuel : nat) (startTime timeoutMs stableMs : Z)
    (lastContent : string) (lastChangeTime : Z) (c : Clock)
  : option ((bool * Z) * Clock) :=
  match fuel with
  | O => None
  | S f =>
      if (now c - startTime <? timeoutMs)%Z then
        let '(content, c1) := getScreenText c in
        let '(lastContent', lastChangeTime') :=
          if String.eqb content lastContent then (lastContent, lastChangeTime)
          else (content, now c1) in
        if (stableMs <=? now c1 - lastChangeTime')%Z
        then Some ((true, now c1 - startTime)%Z, c1)
        else stableLoop f startTime timeoutMs stableMs lastContent'
               lastChangeTime' (busyWait c1)
      else Some ((false, now c - startTime)%Z, c)
  end.

(** [waitForStable(timeoutMs, stableMs)]: result [(stable, elapsedMs)]. *)
Definition waitForStable (timeoutMs stableMs : Z) (c0 : Clock)
  : option ((bool * Z) * Clock) :=
  let startTime := now c0 in
  let '(lastContent, c1) := getScreenText c0 in
  stableLoop (S (Z.to_nat timeoutMs)) startTime timeoutMs stableMs
    lastContent startTime c1.

End Loops.

End Poll.

(* ------------------------------------------------------------------ *)
(** ** Sample worlds *)

Module Fixtures.
Import Manager.

(** A world where every command succeeds with empty output. *)
Definition quietWorld : list Cmd -> Cmd -> ExecResult := fun _ _ => ExecOk "".

(** The report of [zmx list] for two sessions. *)
Definition sampleListing : string :=
  ("session_name=dev pid=123 clients=2" ++ String newline "session_name=x")%string.

(** A world with two sessions in the registry and a Terminal window 42. *)
Definition twoSessionWorld : list Cmd -> Cmd -> ExecResult :=
  fun _ c =>
    match c with
    | ZmxList => ExecOk sampleListing
    | OsaOpen _ => ExecOk "42"
    | OsaFrontWindowId => ExecOk "42"
    | _ => ExecOk ""
    end.

Definition initialState : St := mkSt None None [].

(** After [createSession "dev"] in [twoSessionWorld]. *)
Definition devState : St := mkSt (Some "dev"%string) (Some (JNum 42)) [OsaOpen "dev"].

(** After [killSession "dev"] from [devState]. *)
Definition killedState : St := mkSt None None [OsaOpen "dev"; ZmxKill "dev"]%string.

(** A world whose registry is empty: [zmx list] prints "no sessions found". *)
Definition noSessionsWorld : list Cmd -> Cmd -> ExecResult :=
  fun _ c =>
    match c with
    | ZmxList => ExecOk "no sessions found"
    | _ => ExecOk ""
    end.

(** A world where every session is already gone: [zmx kill] fails, and
    opening a Terminal window gives window 7. *)
Definition deadSessionWorld : list Cmd -> Cmd -> ExecResult :=
  fun _ c =>
    match c with
    | ZmxKill _ => ExecErr 1 "session not found"
    | OsaOpen _ => ExecOk "7"
    | _ => ExecOk ""
    end.

(** A screen that alternates between two contents at every sample. *)
Definition flickerScreen (j : nat) : string :=
  if Nat.even j then "a"%string else "b"%string.

End Fixtures.

(* ================================================================== *)
(** * Properties *)

(* ------------------------------------------------------------------ *)
(** ** Key encoder *)

Ltac all_chars := intros [[] [] [] [] [] [] [] []]; vm_compute; reflexivity.

Lemma lower_ascii_idem : forall c, lower_ascii (lower_ascii c) = lower_ascii c.
Proof. all_chars. Qed.

Lemma lower_ascii_plus :
  forall c, Ascii.eqb (lower_ascii c) plus_char = Ascii.eqb c plus_char.
Proof. all_chars. Qed.

Lemma prefix_plus :
  forall c r, prefix "+" (String c r) = Ascii.eqb c plus_char.
Proof. intros [[] [] [] [] [] [] [] []] [|? ?]; reflexivity. Qed.

Lemma toLowerCase_idem : forall s, toLowerCase (toLowerCase s) = toLowerCase s.
Proof. induction s; simpl; [reflexivity | now rewrite lower_ascii_idem, IHs]. Qed.

Lemma toLowerCase_length : forall s, String.length (toLowerCase s) = String.length s.
Proof. induction s; simpl; congruence. Qed.

Lemma includes_plus_toLowerCase :
  forall s, includes (toLowerCase s) "+" = includes s "+".
Proof.
  induction s as [|c r IH]; [reflexivity|].
  cbn [includes toLowerCase].
  rewrite !prefix_plus, lower_ascii_plus, IH. reflexivity.
Qed.

Lemma split_toLowerCase :
  forall s, split plus_char (toLowerCase s) = map toLowerCase (split plus_char s).
Proof.
  induction s as [|c r IH]; [reflexivity|].
  simpl. rewrite lower_ascii_plus, IH.
  destruct (Ascii.eqb c plus_char); [reflexivity|].
  destruct (split plus_char r); reflexivity.
Qed.

Lemma nth_map_toLowerCase :
  forall n l, nth n (map toLowerCase l) EmptyString = toLowerCase (nth n l EmptyString).
Proof.
  intros n l. change EmptyString with (toLowerCase EmptyString) at 1.
  apply map_nth.
Qed.

(** C3 (as amended).  Key resolution is a function, so deterministic
    and total; it never fails with anything but an unknown-modifier or
    unknown-key error; and, for key names made of Latin-1 characters
    (U+0000..U+00FF, the strings of this model), resolving the
    lower-cased key name gives the same result up to the case of the
    text it carries: modifier names and named keys are case-insensitive,
    while a literal character keeps its case. *)
Theorem resolveKey_case_insensitive_up_to_literal :
  forall key,
    resolveKey (toLowerCase key) = lowerResult (resolveKey key) /\
    match resolveKey key with
    | inl (ExecFailed _ _) => False
    | _ => True
    end.
Proof.
  intros key. unfold resolveKey.
  rewrite includes_plus_toLowerCase, split_toLowerCase, !nth_map_toLowerCase,
    !toLowerCase_idem, !toLowerCase_length.
  destruct (includes key "+").
  - destruct (modifierClause (toLowerCase (nth 0 (split plus_char key) EmptyString))).
    + destruct (keyCode (toLowerCase (nth 1 (split plus_char key) EmptyString)))
        as [[kc|t]|]; [split; reflexivity | split; reflexivity |].
      destruct (Nat.eqb _ 1); split; reflexivity.
    + simpl. rewrite toLowerCase_idem. split; reflexivity.
  - destruct (keyCode (toLowerCase key)) as [[kc|t]|];
      [split; reflexivity | split; reflexivity |].
    destruct (Nat.eqb _ 1); split; reflexivity.
Qed.

(** C3 counterexample: upper and lower case of a modified literal key
    resolve to different keystrokes. *)
Lemma resolveKey_CTRL_C_differs :
  resolveKey "CTRL+C" = inr (KeystrokeMod "C" ModControl) /\
  resolveKey "ctrl+c" = inr (KeystrokeMod "c" ModControl) /\
  resolveKey "CTRL+C" <> resolveKey "ctrl+c".
Proof. vm_compute. split; [reflexivity | split; [reflexivity | congruence]]. Qed.

(** Every single character other than ["+"] is typed as literal text. *)
Lemma resolveKey_single_char :
  forall c, c <> plus_char ->
    resolveKey (String c EmptyString) = inr (TypeLiteral (String c EmptyString)).
Proof.
  intros [[] [] [] [] [] [] [] []] H; vm_compute; try reflexivity;
    exfalso; apply H; reflexivity.
Qed.

(** C4 (code bug).  The one-character key ["+"] is caught by the
    modifier branch ([key.includes("+")]) before the single-character
    branch, and fails with "Unknown modifier: " instead of being typed. *)
Theorem resolveKey_plus_unknown_modifier :
  resolveKey "+" = inl (UnknownModifier EmptyString).
Proof. reflexivity. Qed.

(* ------------------------------------------------------------------ *)
(** ** Registry report parsing *)

Section StringLemmas.
Local Open Scope string_scope.

Lemma prefix_app_inv :
  forall p s, prefix p s = true -> exists r, s = p ++ r.
Proof.
  induction p as [|a p IH]; intros s H; [exists s; reflexivity|].
  destruct s as [|b s]; [discriminate|].
  simpl in H. destruct (ascii_dec a b) as [<-|]; [|discriminate].
  destruct (IH s H) as [r ->]. exists r. reflexivity.
Qed.

Lemma prefix_app :
  forall p x, prefix p (p ++ x) = true.
Proof.
  induction p as [|a p IH]; intros x; [destruct x; reflexivity|].
  simpl. destruct (ascii_dec a a); [apply IH | congruence].
Qed.

Lemma trimEnd_cons :
  forall c r, trimEnd (String c r)
    = if String.eqb (trimEnd r) EmptyString && is_ws c then EmptyString
      else String c (trimEnd r).
Proof. reflexivity. Qed.

Lemma trimEnd_app :
  forall p r, p <> EmptyString -> trimEnd p = p ->
    trimEnd (p ++ r) = p ++ trimEnd r.
Proof.
  induction p as [|c p IH]; intros r Hne Hp; [congruence|].
  rewrite trimEnd_cons in Hp.
  change (String c p ++ r) with (String c (p ++ r)).
  rewrite trimEnd_cons.
  destruct p as [|c' p'].
  - simpl in Hp |- *.
    destruct (is_ws c); [discriminate|].
    destruct (String.eqb (trimEnd r) EmptyString); reflexivity.
  - destruct (String.eqb (trimEnd (String c' p')) EmptyString && is_ws c);
      [discriminate|].
    injection Hp as Hp.
    rewrite (IH r ltac:(discriminate) Hp). reflexivity.
Qed.

Lemma no_sessions_prefix_trim :
  forall out, prefix "no sessions found" out = true ->
    prefix "no sessions found" (trim out) = true.
Proof.
  intros out H. destruct (prefix_app_inv _ _ H) as [r ->].
  unfold trim. change (trimStart ("no sessions found" ++ r))
    with ("no sessions found" ++ r).
  rewrite trimEnd_app by (try discriminate; reflexivity).
  apply prefix_app.
Qed.

(** C5.  A report that starts with "no sessions found" parses to the
    empty list; the line [session_name=dev pid=123 clients=2] parses to
    the record {dev, 123, 2}; a line [session_name=x] alone parses to a
    record whose [pid] and [clients] are absent. *)
Theorem listSessions_parsing :
  (forall out, prefix "no sessions found" out = true -> parseListOutput out = []) /\
  parseListOutput "session_name=dev pid=123 clients=2"
    = [mkSession "dev" (Some 123%Z) (Some 2%Z)] /\
  parseListOutput "session_name=x" = [mkSession "x" None None].
Proof.
  split; [|split; reflexivity].
  intros out H. unfold parseListOutput.
  rewrite (no_sessions_prefix_trim out H). reflexivity.
Qed.

(* ------------------------------------------------------------------ *)
(** ** Escaping of typed text *)

Lemma string_app_assoc :
  forall a b c : string, a ++ (b ++ c) = (a ++ b) ++ c.
Proof. induction a as [|x a IH]; intros b c; simpl; [reflexivity | now rewrite IH]. Qed.

Lemma replace_all_app :
  forall c rep a b, replace_all c rep (a ++ b) = replace_all c rep a ++ replace_all c rep b.
Proof.
  induction a as [|d a IH]; intros b; [reflexivity|].
  simpl. rewrite IH. destruct (Ascii.eqb d c); [apply string_app_assoc | reflexivity].
Qed.

Lemma escapeText_cons :
  forall c r, escapeText (String c r) = escapeChar c ++ escapeText r.
Proof.
  intros c r. unfold escapeText, escapeChar. cbn [replace_all].
  destruct (Ascii.eqb c bs) eqn:Ebs.
  - apply Ascii.eqb_eq in Ebs; subst c.
    rewrite replace_all_app. reflexivity.
  - cbn [replace_all]. destruct (Ascii.eqb c dq); reflexivity.
Qed.

(** C9.  The text [typeText] writes between the quotes of its
    [keystroke "..."] command reads back, through the scripting layer's
    string-literal rules, as exactly the original text, and the literal
    ends at the closing quote the script puts after it. *)
Theorem escapeText_roundtrip :
  forall text rest,
    decodeLiteral (escapeText text ++ String dq rest) = Some (text, rest).
Proof.
  induction text as [|c r IH]; intros rest; [reflexivity|].
  rewrite escapeText_cons, <- string_app_assoc.
  unfold escapeChar.
  destruct (Ascii.eqb c bs) eqn:Ebs.
  - apply Ascii.eqb_eq in Ebs; subst c. simpl.
    rewrite IH. reflexivity.
  - destruct (Ascii.eqb c dq) eqn:Edq.
    + apply Ascii.eqb_eq in Edq; subst c. simpl.
      rewrite IH. reflexivity.
    + simpl. rewrite Edq, Ebs, IH. reflexivity.
Qed.

End StringLemmas.

(* ------------------------------------------------------------------ *)
(** ** Manager operations *)

Import Manager.

Ltac unfold_M := unfold bind, ret, get, put, throw, set_session in *.

Lemma exec_ok :
  forall respond c st out,
    respond (history st) c = ExecOk out ->
    exec respond c st
      = (inr (trim out), mkSt (currentSession st) (windowId st) (history st ++ [c])).
Proof. intros respond c st out H. unfold exec. rewrite H. reflexivity. Qed.

Lemma exec_err :
  forall respond c st status err,
    respond (history st) c = ExecErr status err ->
    exec respond c st
      = (inl (ExecFailed status err), mkSt (currentSession st) (windowId st) (history st ++ [c])).
Proof. intros respond c st status err H. unfold exec. rewrite H. reflexivity. Qed.

(** Killing a list of sessions one by one only appends kill commands. *)
Lemma forEach_kill_ok :
  forall respond sessions st st',
    forEach (fun s => _ <- exec respond (ZmxKill (name s)) ;; ret tt) sessions st
      = (inr tt, st') ->
    history st' = history st ++ map (fun s => ZmxKill (name s)) sessions /\
    currentSession st' = currentSession st /\ windowId st' = windowId st.
Proof.
  intros respond sessions. induction sessions as [|s ss IH]; intros st st' H.
  - simpl in H. unfold ret in H. injection H as <-. rewrite app_nil_r. auto.
  - simpl in H. unfold bind at 1 in H. unfold bind at 1 in H.
    destruct (respond (history st) (ZmxKill (name s))) as [out|status err] eqn:R.
    + rewrite (exec_ok _ _ _ _ R) in H. unfold ret at 1 in H.
      destruct (IH _ _ H) as (Hh & Hc & Hw). simpl in Hh, Hc, Hw.
      rewrite Hh, <- app_assoc. auto.
    + rewrite (exec_err _ _ _ _ _ R) in H. discriminate.
Qed.

(** C6.  When [killAllSessions] returns a count, the registry was listed
    once at the start, a kill was issued and succeeded for every listed
    session in order, the count is the length of that first listing, and
    the Manager's session and window are cleared whatever they were. *)
Theorem killAllSessions_kills_listed_and_clears :
  forall respond st n st',
    killAllSessions respond st = (inr n, st') ->
    exists sessions st1,
      zmx_listSessions respond st = (inr sessions, st1) /\
      n = List.length sessions /\
      history st' = history st1 ++ map (fun s => ZmxKill (name s)) sessions /\
      currentSession st' = None /\ windowId st' = None.
Proof.
  intros respond st n st' H.
  unfold killAllSessions, zmx_killAllSessions in H.
  unfold bind at 1 in H. unfold bind at 1 in H.
  destruct (zmx_listSessions respond st) as [[e|sessions] st1] eqn:L;
    [discriminate|].
  unfold bind at 1 in H.
  destruct (forEach _ sessions st1) as [[e|[]] st2] eqn:F; [discriminate|].
  destruct (forEach_kill_ok _ _ _ _ F) as (Hh & _ & _).
  unfold_M. injection H as <- <-.
  exists sessions, st1. simpl. auto.
Qed.

Lemma sendKeystroke_ok :
  forall respond key ev st,
    (forall h c, exists out, respond h c = ExecOk out) ->
    resolveKey key = inr ev ->
    sendKeystroke respond key st
      = (inr tt, mkSt (currentSession st) (windowId st) (history st ++ [keyCmd ev])).
Proof.
  intros respond key ev st Hok Hr.
  unfold sendKeystroke. rewrite Hr.
  destruct (Hok (history st) (keyCmd ev)) as [out R].
  destruct ev; unfold typeText; unfold bind; simpl in R;
    rewrite (exec_ok _ _ _ _ R); reflexivity.
Qed.

Lemma forEach_sendKeystroke_all :
  forall respond keys st,
    (forall h c, exists out, respond h c = ExecOk out) ->
    Forall resolves keys ->
    forEach (sendKeystroke respond) keys st
      = (inr tt, mkSt (currentSession st) (windowId st) (history st ++ keyCmds keys)).
Proof.
  intros respond keys. induction keys as [|k ks IH]; intros st Hok Hall.
  - simpl. rewrite app_nil_r. destruct st; reflexivity.
  - inversion Hall as [|? ? [ev Hev] Hks]; subst.
    simpl. unfold bind at 1. rewrite (sendKeystroke_ok _ _ _ _ Hok Hev).
    rewrite (IH _ Hok Hks). simpl. rewrite Hev, <- app_assoc. reflexivity.
Qed.

Lemma forEach_sendKeystroke_stop :
  forall respond pre k post e st,
    (forall h c, exists out, respond h c = ExecOk out) ->
    Forall resolves pre ->
    resolveKey k = inl e ->
    forEach (sendKeystroke respond) (pre ++ k :: post) st
      = (inl e, mkSt (currentSession st) (windowId st) (history st ++ keyCmds pre)).
Proof.
  intros respond pre. induction pre as [|k0 ks IH]; intros k post e st Hok Hall Hk.
  - simpl. unfold bind at 1. unfold sendKeystroke. rewrite Hk.
    unfold throw. rewrite app_nil_r. destruct st; reflexivity.
  - inversion Hall as [|? ? [ev Hev] Hks]; subst.
    simpl. unfold bind at 1. rewrite (sendKeystroke_ok _ _ _ _ Hok Hev).
    rewrite (IH _ _ _ _ Hok Hks Hk). simpl. rewrite Hev, <- app_assoc. reflexivity.
Qed.

(** C7 (as amended).  [sendKeys] activates Terminal, then runs the
    command of each key in order.  When every key resolves it returns
    [keys.length].  At the first key that fails to resolve it stops:
    the commands of the earlier keys have been run and are not undone,
    and the caller receives that key's error, with no count. *)
Theorem sendKeys_stops_at_first_unknown :
  forall respond keys st,
    (forall h c, exists out, respond h c = ExecOk out) ->
    (Forall resolves keys ->
     sendKeys respond keys st
       = (inr (List.length keys),
          mkSt (currentSession st) (windowId st)
               (history st ++ OsaActivate :: keyCmds keys))) /\
    (forall pre k post e,
       keys = pre ++ k :: post -> Forall resolves pre -> resolveKey k = inl e ->
       sendKeys respond keys st
         = (inl e, mkSt (currentSession st) (windowId st)
                        (history st ++ OsaActivate :: keyCmds pre))).
Proof.
  intros respond keys st Hok. unfold sendKeys.
  destruct (Hok (history st) OsaActivate) as [out R].
  split.
  - intros Hall. unfold bind at 1. rewrite (exec_ok _ _ _ _ R). unfold bind at 1.
    rewrite (forEach_sendKeystroke_all _ _ _ Hok Hall). simpl.
    rewrite <- app_assoc. reflexivity.
  - intros pre k post e -> Hpre Hk.
    unfold bind at 1. rewrite (exec_ok _ _ _ _ R). unfold bind at 1.
    rewrite (forEach_sendKeystroke_stop _ _ _ _ _ _ Hok Hpre Hk). simpl.
    rewrite <- app_assoc. reflexivity.
Qed.

(** C7 counterexample: with keys [enter] and [bogus], the enter key is
    delivered and the caller gets the error "Unknown key: bogus", not a
    count of one. *)
Lemma sendKeys_partial_reports_error :
  sendKeys Fixtures.quietWorld ["enter"; "bogus"]%string Fixtures.initialState
    = (inl (UnknownKey "bogus"), mkSt None None [OsaActivate; OsaKeyCode 36 None]).
Proof. reflexivity. Qed.

Lemma getTerminalWindowId_total :
  forall respond st, exists w,
    getTerminalWindowId respond st
      = (inr w, mkSt (currentSession st) (windowId st) (history st ++ [OsaFrontWindowId])).
Proof.
  intros respond st. unfold getTerminalWindowId, exec.
  destruct (respond (history st) OsaFrontWindowId) as [out|status err];
    [|eexists; reflexivity].
  destruct (parseInt (trim out)) as [id|]; [|eexists; reflexivity].
  destruct (0 <? id)%Z; eexists; reflexivity.
Qed.

(** What [getStatus] reports about the session, whatever the window
    refresh and the registry do. *)
Lemma getStatus_session :
  forall respond st s st',
    getStatus respond st = (inr s, st') ->
    sessionName s = currentSession st /\
    isActive s = match currentSession st with Some _ => true | None => false end.
Proof.
  intros respond st s st' H. unfold getStatus in H.
  cbv [bind get ret put] in H.
  destruct (truthy (windowId st)).
  - destruct (zmx_listSessions respond st) as [[e|ss] st2];
      [discriminate|]. injection H as <- _. auto.
  - destruct (getTerminalWindowId_total respond st) as [w E]. rewrite E in H.
    destruct (zmx_listSessions respond _) as [[e|ss] st2];
      [discriminate|]. injection H as <- _. auto.
Qed.

(** C10.  Every status [getStatus] returns has [isActive] true exactly
    when [sessionName] is non-null, and reports the Manager's current
    session, whatever state the Manager is in. *)
Theorem getStatus_isActive_iff_session :
  forall respond st s st',
    getStatus respond st = (inr s, st') ->
    (isActive s = true <-> sessionName s <> None) /\
    sessionName s = currentSession st.
Proof.
  intros respond st s st' H.
  destruct (getStatus_session _ _ _ _ H) as [Hn Ha].
  rewrite Ha, Hn. split; [|reflexivity].
  destruct (currentSession st); split; congruence.
Qed.

(** C8.  When [killSession name] returns, the session and window are
    cleared if [name] is the current session, and left as they were
    otherwise; so [createSession "dev"] then [killSession "dev"] leaves
    [getStatus()] with no session name and [isActive] false. *)
Theorem killSession_clears_only_current :
  forall respond sessionName st st',
    killSession respond sessionName st = (inr tt, st') ->
    ((currentSession st = Some sessionName ->
        currentSession st' = None /\ windowId st' = None) /\
     (currentSession st <> Some sessionName ->
        currentSession st' = currentSession st /\ windowId st' = windowId st)) /\
    (forall st0 p st1 st2 s st3,
       createSession respond "dev" st0 = (inr p, st1) ->
       killSession respond "dev" st1 = (inr tt, st2) ->
       getStatus respond st2 = (inr s, st3) ->
       Manager.sessionName s = None /\ isActive s = false).
Proof.
  (* the effect of one successful kill on the session fields *)
  assert (Hkill : forall respond nm st st',
    killSession respond nm st = (inr tt, st') ->
    (currentSession st', windowId st')
      = if is_current (currentSession st) nm then (None, None)
        else (currentSession st, windowId st)).
  { intros respond nm st st' H.
    unfold killSession, zmx_killSession in H. cbv [bind get ret put set_session] in H.
    unfold exec in H.
    destruct (respond (history st) (ZmxKill nm)); [|discriminate].
    simpl in H. destruct (is_current (currentSession st) nm);
      injection H as <-; reflexivity. }
  intros respond nm st st' H. split.
  - specialize (Hkill _ _ _ _ H). split.
    + intros Hc. rewrite Hc in Hkill. simpl in Hkill.
      rewrite String.eqb_refl in Hkill. injection Hkill as -> ->. auto.
    + intros Hc. destruct (is_current (currentSession st) nm) eqn:E.
      * exfalso. apply Hc. destruct (currentSession st) as [c|]; [|discriminate].
        simpl in E. apply String.eqb_eq in E. congruence.
      * injection Hkill as -> ->. auto.
  - intros st0 p st1 st2 s st3 Hc Hk Hs.
    assert (Hcur : currentSession st1 = Some "dev"%string).
    { unfold createSession, openTerminalWithSession in Hc.
      cbv [bind get ret put set_session] in Hc. unfold exec in Hc.
      destruct (respond (history st0) (OsaOpen "dev")); [|discriminate].
      injection Hc as _ <-. reflexivity. }
    specialize (Hkill _ _ _ _ Hk). rewrite Hcur in Hkill. simpl in Hkill.
    injection Hkill as Hs2 _.
    destruct (getStatus_session _ _ _ _ Hs) as [Hn Ha].
    rewrite Hs2 in Hn, Ha. auto.
Qed.

(* ------------------------------------------------------------------ *)
(** ** Polling loops *)

Import Poll.

Lemma busyWait_now : forall c, now (busyWait c) = (now c + pollInterval)%Z.
Proof. intros c. unfold busyWait, pollInterval. simpl. lia. Qed.

Lemma busyWait_reads : forall c, reads (busyWait c) = reads c.
Proof. reflexivity. Qed.

Section TextLoop.

Variables (screen : nat -> string) (text : string) (startTime timeoutMs : Z).

Lemma textLoop_spec :
  forall f c,
    (Z.max (timeoutMs - (now c - startTime)) 0 + pollInterval
       <= pollInterval * Z.of_nat f)%Z ->
    (0 <= now c - startTime)%Z ->
    match textLoop screen f text startTime timeoutMs c with
    | Some ((true, e), c') =>
        (reads c < reads c')%nat /\
        includes (screen (pred (reads c'))) text = true /\
        (forall j, (reads c <= j < pred (reads c'))%nat -> includes (screen j) text = false) /\
        e = (now c' - startTime)%Z /\ (0 <= e < timeoutMs)%Z
    | Some ((false, e), c') =>
        (timeoutMs <= e)%Z /\ e = (now c' - startTime)%Z /\
        (forall j, (reads c <= j < reads c')%nat -> includes (screen j) text = false)
    | None => False
    end.
Proof.
  induction f as [|f IH]; intros c Hf Hel.
  - unfold pollInterval in Hf. simpl in Hf.
    lia.
  - cbn [textLoop]. destruct (Z.ltb_spec (now c - startTime) timeoutMs) as [Lt|Ge].
    + unfold getScreenText. cbn [now reads].
      destruct (includes (screen (reads c)) text) eqn:Inc.
      * repeat split; simpl; try lia; auto.
      * assert (Hf' : (Z.max (timeoutMs - (now (busyWait (mkClock (now c) (S (reads c))))
                          - startTime)) 0 + pollInterval
                         <= pollInterval * Z.of_nat f)%Z).
        { rewrite busyWait_now. cbn [now]. unfold pollInterval in *.
          rewrite Nat2Z.inj_succ in Hf. lia. }
        assert (Hel' : (0 <= now (busyWait (mkClock (now c) (S (reads c)))) - startTime)%Z).
        { rewrite busyWait_now. simpl. unfold pollInterval. lia. }
        specialize (IH _ Hf' Hel'). rewrite busyWait_reads in IH. simpl in IH.
        destruct (textLoop screen f text startTime timeoutMs _) as [[[[] e] c']|];
          [| |contradiction].
        -- destruct IH as (Hr & Hin & Hnot & He & Hb).
           repeat split; auto; try lia.
           intros j Hj. destruct (Nat.eq_dec j (reads c)) as [->|]; [exact Inc|].
           apply Hnot. lia.
        -- destruct IH as (Hb & He & Hnot).
           repeat split; auto.
           intros j Hj. destruct (Nat.eq_dec j (reads c)) as [->|]; [exact Inc|].
           apply Hnot. lia.
    + repeat split; auto; try lia.
Qed.

End TextLoop.

(** C2.  [waitForText] always returns.  It reports found=true as soon as
    a sample contains [text] as a plain substring: that sample contains
    it, none of the earlier ones does, it was taken before [timeoutMs]
    had elapsed, and the elapsed time at that sample is reported.  It
    reports found=false only with at least [timeoutMs] elapsed, and then
    no sample it took contained [text]. *)
Theorem waitForText_found_or_timed_out :
  forall screen text timeoutMs c0,
    match waitForText screen text timeoutMs c0 with
    | Some ((true, e), c') =>
        (reads c0 < reads c')%nat /\
        includes (screen (pred (reads c'))) text = true /\
        (forall j, (reads c0 <= j < pred (reads c'))%nat ->
                   includes (screen j) text = false) /\
        e = (now c' - now c0)%Z /\ (0 <= e < timeoutMs)%Z
    | Some ((false, e), c') =>
        (timeoutMs <= e)%Z /\ e = (now c' - now c0)%Z /\
        (forall j, (reads c0 <= j < reads c')%nat -> includes (screen j) text = false)
    | None => False
    end.
Proof.
  intros screen text timeoutMs c0. unfold waitForText.
  apply textLoop_spec.
  - rewrite Nat2Z.inj_succ. unfold pollInterval.
    destruct (Z.leb_spec 0 timeoutMs).
    + rewrite Z2Nat.id by lia. lia.
    + destruct timeoutMs as [|p|p]; [lia|lia|]. rewrite Z2Nat.inj_neg. lia.
  - lia.
Qed.

Section StableLoop.

Variables (screen : nat -> string) (startTime timeoutMs stableMs : Z) (s0 : string).

(** On a screen that keeps showing [s0], with the last change at the
    start, the loop declares stability within one poll interval of
    [stableMs]. *)
Lemma stableLoop_unchanging :
  forall f c,
    (forall j, (reads c <= j)%nat -> screen j = s0) ->
    (0 <= now c - startTime < stableMs + pollInterval)%Z ->
    (stableMs + pollInterval <= timeoutMs)%Z ->
    (stableMs - (now c - startTime) + pollInterval <= pollInterval * Z.of_nat f)%Z ->
    exists e c',
      stableLoop screen f startTime timeoutMs stableMs s0 startTime c
        = Some ((true, e), c') /\
      (stableMs <= e < stableMs + pollInterval)%Z.
Proof.
  induction f as [|f IH]; intros c Hscr Hel Hto Hf.
  - unfold pollInterval in *. simpl in Hf. lia.
  - cbn [stableLoop].
    destruct (Z.ltb_spec (now c - startTime) timeoutMs) as [Lt|Ge];
      [|unfold pollInterval in *; lia].
    unfold getScreenText. cbn [now reads].
    rewrite (Hscr (reads c) (le_n _)), String.eqb_refl.
    destruct (Z.leb_spec stableMs (now c - startTime)) as [Hs|Hs].
    + exists (now c - startTime)%Z, (mkClock (now c) (S (reads c))).
      split; [reflexivity | lia].
    + apply IH.
      * intros j Hj. apply Hscr. rewrite busyWait_reads in Hj. simpl in Hj. lia.
      * rewrite busyWait_now. cbn [now]. unfold pollInterval in *. lia.
      * exact Hto.
      * rewrite busyWait_now. cbn [now]. unfold pollInterval in *.
        rewrite Nat2Z.inj_succ in Hf. lia.
Qed.

End StableLoop.

(** C1 counterexample: with stableMs = 450 < timeoutMs = 480 and a
    screen that never changes, the samples fall at 0, 100, ..., 400 ms,
    none of which reaches 450 ms, and the next loop test at 500 ms is
    past the timeout: the call reports stable=false after 500 ms. *)
Lemma waitForStable_unchanging_times_out :
  (450 < 480)%Z /\
  waitForStable (fun _ => "$ "%string) 480 450 (mkClock 0 0)
    = Some ((false, 500%Z), mkClock 500 6).
Proof. split; [lia | reflexivity]. Qed.

(** C1 (as amended).  If every sample equals the first and stableMs is
    at least one poll interval below timeoutMs, [waitForStable] reports
    stable=true with an elapsed time within one poll interval above
    stableMs. *)
Theorem waitForStable_unchanging_stable :
  forall screen timeoutMs stableMs c0,
    (forall j, (reads c0 <= j)%nat -> screen j = screen (reads c0)) ->
    (0 <= stableMs)%Z ->
    (stableMs + pollInterval <= timeoutMs)%Z ->
    exists e c',
      waitForStable screen timeoutMs stableMs c0 = Some ((true, e), c') /\
      (stableMs <= e < stableMs + pollInterval)%Z.
Proof.
  intros screen timeoutMs stableMs c0 Hscr Hs Hto.
  unfold waitForStable, getScreenText.
  apply stableLoop_unchanging; cbn [now reads].
  - intros j Hj. apply Hscr. lia.
  - unfold pollInterval. lia.
  - exact Hto.
  - rewrite Nat2Z.inj_succ, Z2Nat.id; unfold pollInterval in *; lia.
Qed.

(** Witness of [waitForStable_unchanging_stable]: a screen that never
    changes, stableMs = 500, timeoutMs = 5000. *)
Lemma waitForStable_unchanging_stable_witness :
  (forall j, (0 <= j)%nat -> (fun _ : nat => "$ "%string) j = (fun _ : nat => "$ "%string) 0%nat) /\
  (0 <= 500)%Z /\ (500 + pollInterval <= 5000)%Z /\
  exists e c',
    waitForStable (fun _ => "$ "%string) 5000 500 (mkClock 0 0) = Some ((true, e), c') /\
    (500 <= e < 500 + pollInterval)%Z.
Proof.
  assert (Hscr : forall j, (0 <= j)%nat ->
            (fun _ : nat => "$ "%string) j = (fun _ : nat => "$ "%string) 0%nat)
    by (intros; reflexivity).
  assert (H1 : (0 <= 500)%Z) by lia.
  assert (H2 : (500 + pollInterval <= 5000)%Z) by (vm_compute; discriminate).
  split; [exact Hscr | split; [exact H1 | split; [exact H2 |]]].
  exact (waitForStable_unchanging_stable (fun _ => "$ "%string) 5000 500 (mkClock 0 0)
           Hscr H1 H2).
Defined.

(* ------------------------------------------------------------------ *)
(** ** Witnesses: the theorems applied at concrete inputs *)

Import Fixtures.

Lemma listSessions_parsing_witness :
  prefix "no sessions found" "no sessions found in /tmp/zmx" = true /\
  parseListOutput "no sessions found in /tmp/zmx" = [].
Proof.
  assert (H : prefix "no sessions found" "no sessions found in /tmp/zmx" = true)
    by reflexivity.
  split; [exact H | exact (proj1 listSessions_parsing _ H)].
Defined.

Lemma killAllSessions_witness :
  killAllSessions twoSessionWorld (mkSt (Some "dev"%string) (Some (JNum 42)) [])
    = (inr 2%nat, mkSt None None [ZmxList; ZmxKill "dev"; ZmxKill "x"]%string) /\
  exists sessions st1,
    zmx_listSessions twoSessionWorld (mkSt (Some "dev"%string) (Some (JNum 42)) [])
      = (inr sessions, st1) /\
    2%nat = List.length sessions /\
    [ZmxList; ZmxKill "dev"; ZmxKill "x"]%string
      = history st1 ++ map (fun s => ZmxKill (name s)) sessions /\
    @None string = None /\ @None JsNum = None.
Proof.
  assert (H : killAllSessions twoSessionWorld (mkSt (Some "dev"%string) (Some (JNum 42)) [])
    = (inr 2%nat, mkSt None None [ZmxList; ZmxKill "dev"; ZmxKill "x"]%string))
    by reflexivity.
  split; [exact H | exact (killAllSessions_kills_listed_and_clears _ _ _ _ H)].
Defined.

Lemma sendKeys_witness :
  (forall h c, exists out, quietWorld h c = ExecOk out) /\
  sendKeys quietWorld ["enter"; "tab"]%string initialState
    = (inr 2%nat, mkSt None None ([] ++ OsaActivate :: keyCmds ["enter"; "tab"]%string)) /\
  sendKeys quietWorld ["enter"; "bogus"]%string initialState
    = (inl (UnknownKey "bogus"), mkSt None None ([] ++ OsaActivate :: keyCmds ["enter"]%string)).
Proof.
  assert (Hok : forall h c, exists out, quietWorld h c = ExecOk out)
    by (intros; exists EmptyString; reflexivity).
  split; [exact Hok | split].
  - apply (sendKeys_stops_at_first_unknown quietWorld ["enter"; "tab"]%string
             initialState Hok).
    constructor; [exists (KeyCode 36); reflexivity|].
    constructor; [exists (KeyCode 48); reflexivity | constructor].
  - apply (proj2 (sendKeys_stops_at_first_unknown quietWorld ["enter"; "bogus"]%string
             initialState Hok) ["enter"]%string "bogus"%string []).
    + reflexivity.
    + constructor; [exists (KeyCode 36); reflexivity | constructor].
    + reflexivity.
Defined.

Lemma killSession_witness :
  createSession twoSessionWorld "dev" initialState = (inr ("dev"%string, JNum 42), devState) /\
  killSession twoSessionWorld "dev" devState = (inr tt, killedState) /\
  getStatus twoSessionWorld killedState
    = (inr (mkStatus None false (Some (JNum 42)) (parseListOutput sampleListing)),
       mkSt None (Some (JNum 42)) [OsaOpen "dev"; ZmxKill "dev"; OsaFrontWindowId; ZmxList]%string) /\
  (currentSession killedState = None /\ windowId killedState = None) /\
  (Manager.sessionName (mkStatus None false (Some (JNum 42)) (parseListOutput sampleListing)) = None /\
   isActive (mkStatus None false (Some (JNum 42)) (parseListOutput sampleListing)) = false).
Proof.
  assert (Hc : createSession twoSessionWorld "dev" initialState
                 = (inr ("dev"%string, JNum 42), devState)) by reflexivity.
  assert (Hk : killSession twoSessionWorld "dev" devState = (inr tt, killedState))
    by reflexivity.
  assert (Hs : getStatus twoSessionWorld killedState
    = (inr (mkStatus None false (Some (JNum 42)) (parseListOutput sampleListing)),
       mkSt None (Some (JNum 42)) [OsaOpen "dev"; ZmxKill "dev"; OsaFrontWindowId; ZmxList]%string))
    by reflexivity.
  destruct (killSession_clears_only_current twoSessionWorld "dev" devState killedState Hk)
    as [[Hcur _] Hseq].
  split; [exact Hc | split; [exact Hk | split; [exact Hs | split]]].
  - exact (Hcur eq_refl).
  - exact (Hseq _ _ _ _ _ _ Hc Hk Hs).
Defined.

Lemma getStatus_witness :
  getStatus twoSessionWorld devState
    = (inr (mkStatus (Some "dev"%string) true (Some (JNum 42)) (parseListOutput sampleListing)),
       mkSt (Some "dev"%string) (Some (JNum 42)) [OsaOpen "dev"; ZmxList]%string) /\
  ((true = true <-> Some "dev"%string <> None) /\ Some "dev"%string = currentSession devState).
Proof.
  assert (H : getStatus twoSessionWorld devState
    = (inr (mkStatus (Some "dev"%string) true (Some (JNum 42)) (parseListOutput sampleListing)),
       mkSt (Some "dev"%string) (Some (JNum 42)) [OsaOpen "dev"; ZmxList]%string))
    by reflexivity.
  split; [exact H | exact (getStatus_isActive_iff_session _ _ _ _ H)].
Defined.

(* ------------------------------------------------------------------ *)
(** ** Further properties of the code *)

Section ExtraStrings.
Local Open Scope string_scope.

Lemma string_app_nil_r : forall s : string, s ++ "" = s.
Proof. induction s as [|c s IH]; simpl; [reflexivity | now rewrite IH]. Qed.

Lemma shRead_single_quoted :
  forall s rest,
    shRead InSingle
      (replace_all squote
         (String squote (String dq (String squote (String dq (String squote EmptyString)))))
         s ++ String squote rest)
    = option_map (append s) (shRead Unquoted rest).
Proof.
  induction s as [|c s IH]; intros rest; [simpl; destruct (shRead Unquoted rest); reflexivity|].
  cbn [replace_all]. destruct (Ascii.eqb c squote) eqn:E.
  - apply Ascii.eqb_eq in E; subst c. simpl. rewrite IH.
    destruct (shRead Unquoted rest); reflexivity.
  - simpl. rewrite E, IH. destruct (shRead Unquoted rest); reflexivity.
Qed.

(** X1.  [runAppleScript] puts its script in single quotes on the
    [osascript -e] command line, turning each single quote into
    ['"'"']: a POSIX shell reads that quoted word back as exactly the
    script, whatever quotes it contains. *)
Theorem shellQuote_roundtrip :
  forall script, shRead Unquoted (shellQuote script) = Some script.
Proof.
  intros script. unfold shellQuote. simpl.
  rewrite shRead_single_quoted. simpl. now rewrite string_app_nil_r.
Qed.

Lemma prefix_one :
  forall d c r, prefix (String d "") (String c r) = Ascii.eqb c d.
Proof.
  intros d c r. simpl. destruct (ascii_dec d c) as [->|N].
  - rewrite Ascii.eqb_refl. destruct r; reflexivity.
  - symmetry. apply Ascii.eqb_neq. congruence.
Qed.

Lemma includes_one_cons :
  forall d c r, includes (String c r) (String d "") = Ascii.eqb c d || includes r (String d "").
Proof. intros d c r. cbn [includes]. now rewrite prefix_one. Qed.

Lemma split_no_sep :
  forall sep a, includes a (String sep "") = false -> split sep a = [a].
Proof.
  intros sep. induction a as [|c a IH]; intros H; [reflexivity|].
  rewrite includes_one_cons in H. apply orb_false_iff in H as [H1 H2].
  simpl. rewrite H1, (IH H2). reflexivity.
Qed.

Lemma split_app_sep :
  forall sep a b, includes a (String sep "") = false ->
    split sep (a ++ String sep b) = a :: split sep b.
Proof.
  intros sep. induction a as [|c a IH]; intros b H.
  - simpl. now rewrite Ascii.eqb_refl.
  - rewrite includes_one_cons in H. apply orb_false_iff in H as [H1 H2].
    simpl. rewrite H1, (IH b H2). reflexivity.
Qed.

Lemma includes_app_sep :
  forall sep a b, includes (a ++ String sep b) (String sep "") = true.
Proof.
  intros sep. induction a as [|c a IH]; intros b.
  - simpl (EmptyString ++ _). rewrite includes_one_cons, Ascii.eqb_refl. reflexivity.
  - simpl (String c a ++ _). rewrite includes_one_cons, IH. apply orb_true_r.
Qed.

Lemma resolveKey_two_parts :
  forall m k rest,
    includes m "+" = false -> includes k "+" = false ->
    (rest = "" \/ exists r, rest = "+" ++ r) ->
    resolveKey (m ++ "+" ++ k ++ rest)
      = match modifierClause (toLowerCase m) with
        | None => inl (UnknownModifier (toLowerCase m))
        | Some md =>
            match keyCode (toLowerCase k) with
            | Some (OwnCode kc) => inr (KeyCodeMod kc md)
            | Some (Inherited t) => inr (KeyCodeInheritedMod t md)
            | None =>
                if Nat.eqb (String.length k) 1 then inr (KeystrokeMod k md)
                else inl (UnknownKey k)
            end
        end.
Proof.
  intros m k rest Hm Hk Hr. unfold resolveKey.
  change ("+" ++ k ++ rest) with (String plus_char (k ++ rest)).
  rewrite includes_app_sep. change "+" with (String plus_char "") in Hm, Hk.
  rewrite (split_app_sep _ _ _ Hm).
  destruct Hr as [->|[r ->]].
  - rewrite string_app_nil_r, (split_no_sep _ _ Hk). reflexivity.
  - change ("+" ++ r) with (String plus_char r).
    rewrite (split_app_sep _ _ _ Hk). reflexivity.
Qed.

Lemma keyCode_single : forall c, keyCode (String c "") = None.
Proof. all_chars. Qed.

Lemma lower_single : forall c, toLowerCase (String c "") = String (lower_ascii c) "".
Proof. reflexivity. Qed.

(** X3.  With a known modifier, [m+c] for a single character [c] other
    than [+] sends [keystroke "c" using ... down] with [c] put between the
    quotes unescaped, and that literal reads back as [c] exactly when [c]
    is neither a double quote nor a backslash. *)
Theorem modified_char_unescaped :
  forall m c md rest,
    includes m "+" = false -> c <> plus_char ->
    modifierClause (toLowerCase m) = Some md ->
    resolveKey (m ++ "+" ++ String c "") = inr (KeystrokeMod (String c "") md) /\
    (decodeLiteral (String c (String dq rest)) = Some (String c "", rest)
       <-> c <> dq /\ c <> bs).
Proof.
  intros m c md rest Hm Hc Hmd. split.
  - rewrite <- (string_app_nil_r (String c "")).
    rewrite (resolveKey_two_parts m (String c "") "" Hm); [| |now left].
    + rewrite Hmd, lower_single, keyCode_single. reflexivity.
    + change "+" with (String plus_char ""). rewrite includes_one_cons.
      simpl. destruct (Ascii.eqb_spec c plus_char); [contradiction|]. reflexivity.
  - simpl. destruct (Ascii.eqb_spec c dq) as [->|Nd].
    + split; [intros H; discriminate H | intros [H _]; contradiction].
    + destruct (Ascii.eqb_spec c bs) as [->|Nb].
      * split; [|intros [_ H]; contradiction].
        unfold unescape. simpl. destruct (decodeLiteral rest) as [[v r]|]; discriminate.
      * split; [auto | intros _; reflexivity].
Qed.


Lemma match_capture_blank :
  forall k0 key' cls w,
    is_ws k0 = false ->
    Forall (fun c => is_ws c = true /\ c <> newline) (list_ascii_of_string w) ->
    match_capture (String k0 key') cls w = None.
Proof.
  intros k0 key' cls. induction w as [|c w IH]; intros Hk Hw; [reflexivity|].
  inversion Hw as [|? ? [Hc _] Hw']; subst.
  cbn [match_capture]. rewrite (IH Hk Hw').
  cbn [prefix]. destruct (ascii_dec k0 c) as [->|]; [congruence|].
  reflexivity.
Qed.

Lemma trimStart_blank :
  forall w, Forall (fun c => is_ws c = true /\ c <> newline) (list_ascii_of_string w) ->
    trimStart w = "".
Proof.
  induction w as [|c w IH]; intros Hw; [reflexivity|].
  inversion Hw as [|? ? [Hc _] Hw']; subst. simpl. rewrite Hc. auto.
Qed.

Lemma includes_newline_blank :
  forall w, Forall (fun c => is_ws c = true /\ c <> newline) (list_ascii_of_string w) ->
    includes w (String newline "") = false.
Proof.
  induction w as [|c w IH]; intros Hw; [reflexivity|].
  inversion Hw as [|? ? [_ Hc] Hw']; subst.
  rewrite includes_one_cons, (IH Hw'). destruct (Ascii.eqb_spec c newline); [contradiction|].
  reflexivity.
Qed.

Lemma parseLine_blank :
  forall w, Forall (fun c => is_ws c = true /\ c <> newline) (list_ascii_of_string w) ->
    parseLine w = mkSession "" None None.
Proof.
  intros w Hw. unfold parseLine.
  rewrite !match_capture_blank by (reflexivity || exact Hw).
  unfold trim. rewrite (trimStart_blank w Hw). reflexivity.
Qed.

Lemma trimStart_length :
  forall s, String.length (trimStart s) <= String.length s.
Proof. induction s as [|d s IH]; simpl; [lia|]. destruct (is_ws d); simpl; lia. Qed.

Lemma trimStart_app :
  forall x z, x <> "" -> trimStart x = x -> trimStart (x ++ z) = x ++ z.
Proof.
  intros [|c x] z Hne H; [congruence|].
  simpl in H |- *. destruct (is_ws c); [|reflexivity].
  exfalso. assert (L := f_equal String.length H). simpl in L.
  pose proof (trimStart_length x). lia.
Qed.

Lemma trimEnd_suffix :
  forall p y, y <> "" -> trimEnd y = y -> trimEnd (p ++ y) = p ++ y.
Proof.
  induction p as [|c p IH]; intros y Hne H; [exact H|].
  change (String c p ++ y) with (String c (p ++ y)).
  rewrite trimEnd_cons, (IH y Hne H).
  destruct p as [|c' p'], y as [|d y]; try congruence; reflexivity.
Qed.

Lemma prefix_app_newline :
  forall p x z, includes p (String newline "") = false -> prefix p x = false ->
    prefix p (x ++ String newline z) = false.
Proof.
  induction p as [|a p IH]; intros x z Hp Hx; [destruct x; discriminate|].
  rewrite includes_one_cons in Hp. apply orb_false_iff in Hp as [Ha Hp].
  destruct x as [|b x].
  - simpl. destruct (ascii_dec a newline) as [->|]; [|reflexivity].
    rewrite Ascii.eqb_refl in Ha. discriminate.
  - simpl in Hx |- *. destruct (ascii_dec a b); [|reflexivity]. apply IH; assumption.
Qed.

(** X4.  A non-empty line made only of blanks between two registry lines
    is kept by [listSessions] and gives a session with an empty name and
    no pid or client count. *)
Theorem parseListOutput_blank_line :
  forall x w y,
    x <> "" -> trimStart x = x -> includes x (String newline "") = false ->
    prefix "no sessions found" x = false ->
    w <> "" -> Forall (fun c => is_ws c = true /\ c <> newline) (list_ascii_of_string w) ->
    y <> "" -> trimEnd y = y -> includes y (String newline "") = false ->
    parseListOutput (x ++ String newline (w ++ String newline y))
      = [parseLine x; mkSession "" None None; parseLine y].
Proof.
  intros x w y Hx Hxs Hxn Hxp Hw Hwb Hy Hye Hyn.
  unfold parseListOutput, trim.
  rewrite (trimStart_app _ _ Hx Hxs).
  assert (E : x ++ String newline (w ++ String newline y)
              = (x ++ String newline (w ++ String newline "")) ++ y).
  { rewrite <- string_app_assoc. simpl. rewrite <- string_app_assoc. reflexivity. }
  rewrite E, (trimEnd_suffix _ _ Hy Hye), <- E.
  rewrite (prefix_app_newline "no sessions found" _ _ eq_refl Hxp).
  rewrite (split_app_sep _ _ _ Hxn), (split_app_sep _ _ _ (includes_newline_blank _ Hwb)),
    (split_no_sep _ _ Hyn).
  cbn [filter map].
  destruct x, w, y; try congruence. simpl (String.eqb _ _). cbn [negb].
  cbn [map]. rewrite (parseLine_blank _ Hwb). reflexivity.
Qed.

Lemma list_ascii_of_string_app :
  forall a b, list_ascii_of_string (a ++ b) = (list_ascii_of_string a ++ list_ascii_of_string b)%list.
Proof. induction a as [|c a IH]; intros b; simpl; [reflexivity | now rewrite IH]. Qed.

Lemma string_app_eq_cases :
  forall a b c d : string, a ++ b = c ++ d ->
    (exists m, c = a ++ m /\ b = m ++ d) \/ (exists m, a = c ++ m /\ d = m ++ b).
Proof.
  induction a as [|x a IH]; intros b c d H.
  - left. exists c. split; [reflexivity | exact H].
  - destruct c as [|y c].
    + right. exists (String x a). split; [reflexivity | exact (eq_sym H)].
    + simpl in H. injection H as -> H.
      destruct (IH _ _ _ H) as [[m [-> ->]]|[m [-> ->]]];
        [left | right]; exists m; split; reflexivity.
Qed.

Lemma prefix_blocked :
  forall K n2 s b,
    In "="%char (list_ascii_of_string K) ->
    Forall (fun c => is_ws c = false) (list_ascii_of_string K) ->
    Forall (fun c => c <> "="%char /\ is_ws c = false) (list_ascii_of_string n2) ->
    is_ws s = true ->
    prefix K (n2 ++ String s b) = false.
Proof.
  intros K n2 s b HK HKw Hn Hs.
  destruct (prefix K (n2 ++ String s b)) eqn:P; [exfalso|reflexivity].
  destruct (prefix_app_inv _ _ P) as [r E].
  destruct (string_app_eq_cases _ _ _ _ E) as [[m [-> Em]]|[m [-> _]]].
  - destruct m as [|s' m].
    + rewrite string_app_nil_r in HK.
      rewrite Forall_forall in Hn. destruct (Hn _ HK) as [H _]. apply H. reflexivity.
    + simpl in Em. injection Em as <- _.
      rewrite Forall_forall in HKw. rewrite list_ascii_of_string_app in HKw.
      assert (Hin : In s (list_ascii_of_string n2 ++ list_ascii_of_string (String s m))%list)
        by (apply in_or_app; right; left; reflexivity).
      rewrite (HKw _ Hin) in Hs. discriminate.
  - rewrite list_ascii_of_string_app in Hn. apply Forall_app in Hn as [Hn _].
    rewrite Forall_forall in Hn. destruct (Hn _ HK) as [H _]. apply H. reflexivity.
Qed.

Lemma match_capture_skip_word :
  forall K cls n s b,
    In "="%char (list_ascii_of_string K) ->
    Forall (fun c => is_ws c = false) (list_ascii_of_string K) ->
    Forall (fun c => c <> "="%char /\ is_ws c = false) (list_ascii_of_string n) ->
    is_ws s = true ->
    match_capture K cls (n ++ String s b) = match_capture K cls b.
Proof.
  intros K cls n s b HK HKw Hn Hs. revert Hn.
  induction n as [|c n IH]; intros Hn.
  - cbn [append match_capture].
    pose proof (prefix_blocked K "" s b HK HKw (Forall_nil _) Hs) as P. change ("" ++ String s b) with (String s b) in P.
    rewrite P. reflexivity.
  - change (String c n ++ String s b) with (String c (n ++ String s b)).
    cbn [match_capture].
    pose proof (prefix_blocked K (String c n) s b HK HKw Hn Hs) as P.
    change (String c n ++ String s b) with (String c (n ++ String s b)) in P.
    rewrite P.
    inversion Hn; subst. apply IH; assumption.
Qed.

Lemma take_while_all :
  forall p a, Forall (fun c => p c = true) (list_ascii_of_string a) -> take_while p a = a.
Proof.
  intros p. induction a as [|c a IH]; intros H; [reflexivity|].
  inversion H; subst. simpl. rewrite H2, IH; auto.
Qed.

Lemma take_while_stop :
  forall p a s b, Forall (fun c => p c = true) (list_ascii_of_string a) -> p s = false ->
    take_while p (a ++ String s b) = a.
Proof.
  intros p. induction a as [|c a IH]; intros s b H Hs; simpl; [rewrite Hs; reflexivity|].
  inversion H; subst. rewrite H2, IH; auto.
Qed.

Lemma substring_all :
  forall r m, String.length r <= m -> substring 0 m r = r.
Proof.
  induction r as [|c r IH]; intros m H; [destruct m; reflexivity|].
  destruct m as [|m]; simpl in H; [lia|]. simpl. rewrite IH; [reflexivity|lia].
Qed.

Lemma substring_after :
  forall K r, substring (String.length K) (String.length (K ++ r)) (K ++ r) = r.
Proof.
  intros K r. assert (H : String.length r <= String.length (K ++ r)).
  { induction K as [|c K IH]; simpl; lia. }
  revert H. generalize (String.length (K ++ r)) as m. intros m H.
  induction K as [|c K IH]; [apply substring_all; exact H|]. exact IH.
Qed.

Lemma match_capture_here :
  forall K cls r, K <> "" -> take_while cls r <> "" ->
    match_capture K cls (K ++ r) = Some (take_while cls r).
Proof.
  intros [|k K'] cls r HK Hv; [congruence|].
  change (String k K' ++ r) with (String k (K' ++ r)).
  cbn [match_capture].
  change (String k (K' ++ r)) with (String k K' ++ r).
  rewrite prefix_app, substring_after.
  destruct (String.eqb_spec (take_while cls r) "") as [E|]; [contradiction|reflexivity].
Qed.

Lemma match_capture_skip_char :
  forall k K' cls c b, k <> c ->
    match_capture (String k K') cls (String c b) = match_capture (String k K') cls b.
Proof.
  intros k K' cls c b H. cbn [match_capture prefix].
  destruct (ascii_dec k c); [contradiction|reflexivity].
Qed.

Lemma digit_not_eq_ws :
  forall c, is_digit c = true -> c <> "="%char /\ is_ws c = false.
Proof.
  intros [[] [] [] [] [] [] [] []] H; vm_compute in H; try discriminate H;
    split; try reflexivity; intros E; discriminate E.
Qed.

Lemma digits_ok :
  forall d, Forall (fun c => is_digit c = true) (list_ascii_of_string d) ->
    Forall (fun c => c <> "="%char /\ is_ws c = false) (list_ascii_of_string d).
Proof.
  intros d H. eapply Forall_impl; [|exact H]. intros c. apply digit_not_eq_ws.
Qed.

Lemma not_ws_ok :
  forall n, Forall (fun c => c <> "="%char /\ is_ws c = false) (list_ascii_of_string n) ->
    Forall (fun c => not_ws c = true) (list_ascii_of_string n).
Proof.
  intros n H. eapply Forall_impl; [|exact H]. intros c [_ Hc]. unfold not_ws. now rewrite Hc.
Qed.

Lemma take_while_nonempty :
  forall p a b, a <> "" -> Forall (fun c => p c = true) (list_ascii_of_string a) ->
    take_while p (a ++ b) <> "".
Proof.
  intros p [|c a] b Hne H; [congruence|]. inversion H; subst. simpl. rewrite H2. discriminate.
Qed.

Lemma match_capture_skip_blanks :
  forall k K' cls w b, is_ws k = false ->
    Forall (fun c => is_ws c = true) (list_ascii_of_string w) ->
    match_capture (String k K') cls (w ++ b) = match_capture (String k K') cls b.
Proof.
  intros k K' cls w b Hk. induction w as [|c w IH]; intros Hw; [reflexivity|].
  inversion Hw as [|? ? Hc Hw']; subst.
  change (String c w ++ b) with (String c (w ++ b)).
  rewrite match_capture_skip_char by congruence. exact (IH Hw').
Qed.

(** X5.  A registry line [session_name=N  pid=P  clients=C], its fields
    separated by runs of blanks, parses to the session {N, P, C} whenever
    N is non-empty and has no blank and no [=], and P and C are non-empty
    digit strings of value at most 2^53 (where [parseInt] is exact). *)
Theorem parseLine_standard :
  forall n w1 d1 w2 d2,
    n <> "" ->
    Forall (fun c => c <> "="%char /\ is_ws c = false) (list_ascii_of_string n) ->
    w1 <> "" -> Forall (fun c => is_ws c = true) (list_ascii_of_string w1) ->
    d1 <> "" -> Forall (fun c => is_digit c = true) (list_ascii_of_string d1) ->
    (parseDigits d1 <= 9007199254740992)%Z ->
    w2 <> "" -> Forall (fun c => is_ws c = true) (list_ascii_of_string w2) ->
    d2 <> "" -> Forall (fun c => is_digit c = true) (list_ascii_of_string d2) ->
    (parseDigits d2 <= 9007199254740992)%Z ->
    parseLine ("session_name=" ++ n ++ w1 ++ "pid=" ++ d1 ++ w2 ++ "clients=" ++ d2)
      = mkSession n (Some (parseDigits d1)) (Some (parseDigits d2)).
Proof.
  intros n w1 d1 w2 d2 Hn Hnc Hw1 Hw1c Hd1 Hd1c _ Hw2 Hw2c Hd2 Hd2c _.
  destruct w1 as [|s1 r1]; [congruence|]. destruct w2 as [|s2 r2]; [congruence|].
  inversion Hw1c as [|? ? Hs1 Hr1]; subst. inversion Hw2c as [|? ? Hs2 Hr2]; subst.
  change (String s1 r1 ++ ?x) with (String s1 (r1 ++ x)).
  change (String s2 r2 ++ ?x) with (String s2 (r2 ++ x)).
  assert (Kp : In "="%char (list_ascii_of_string "pid=")) by (simpl; auto 6).
  assert (Kc : In "="%char (list_ascii_of_string "clients=")) by (simpl; auto 10).
  assert (Wp : Forall (fun c => is_ws c = false) (list_ascii_of_string "pid="))
    by (repeat constructor).
  assert (Wc : Forall (fun c => is_ws c = false) (list_ascii_of_string "clients="))
    by (repeat constructor).
  unfold parseLine.
  rewrite match_capture_here;
    [| discriminate
     | apply take_while_nonempty; [exact Hn | apply not_ws_ok; exact Hnc]].
  rewrite (take_while_stop _ _ _ _ (not_ws_ok _ Hnc)) by (unfold not_ws; now rewrite Hs1).
  cbn [append].
  repeat (rewrite match_capture_skip_char by (intros E; discriminate E)).
  rewrite !(match_capture_skip_word _ _ n) by assumption.
  rewrite !(match_capture_skip_blanks _ _ _ r1) by (reflexivity || assumption).
  change (String "p" (String "i" (String "d" (String "=" (d1 ++ String s2 ?r)))))
    with ("pid=" ++ (d1 ++ String s2 r)).
  rewrite match_capture_here;
    [| discriminate | apply take_while_nonempty; assumption].
  rewrite (take_while_stop _ _ _ _ Hd1c)
    by (destruct (is_digit s2) eqn:E; [|reflexivity];
        destruct (digit_not_eq_ws _ E) as [_ W]; congruence).
  cbn [append].
  repeat (rewrite match_capture_skip_char by (intros E; discriminate E)).
  rewrite (match_capture_skip_word _ _ d1) by (assumption || apply digits_ok; assumption).
  rewrite (match_capture_skip_blanks _ _ _ r2) by (reflexivity || assumption).
  change (String "c" (String "l" (String "i" (String "e" (String "n" (String "t"
            (String "s" (String "=" d2))))))))
    with ("clients=" ++ d2).
  rewrite match_capture_here;
    [| discriminate | rewrite <- (string_app_nil_r d2) at 1;
                      apply take_while_nonempty; assumption].
  rewrite (take_while_all _ _ Hd2c). reflexivity.
Qed.
(** X2.  For a modifier part [m] and a key part [k] that contain no [+],
    [m+k] resolves from [m] and [k] alone: a known modifier with a key
    whose lower-cased name is an own entry of [KEY_CODES] gives its key
    code; with a name [KEY_CODES] inherits from [Object.prototype]
    ([constructor], [__proto__]) it gives a key-code script carrying
    that member's text; otherwise a single character gives a keystroke
    and anything else an unknown-key error.  Anything after a second [+]
    is ignored: only one modifier is read, so [ctrl+shift+a] resolves as
    [ctrl+shift]. *)
Theorem resolveKey_modifier_parts :
  forall m k r,
    includes m "+" = false -> includes k "+" = false ->
    resolveKey (m ++ "+" ++ k ++ "+" ++ r) = resolveKey (m ++ "+" ++ k) /\
    resolveKey (m ++ "+" ++ k)
      = match modifierClause (toLowerCase m) with
        | None => inl (UnknownModifier (toLowerCase m))
        | Some md =>
            match keyCode (toLowerCase k) with
            | Some (OwnCode kc) => inr (KeyCodeMod kc md)
            | Some (Inherited t) => inr (KeyCodeInheritedMod t md)
            | None =>
                if Nat.eqb (String.length k) 1 then inr (KeystrokeMod k md)
                else inl (UnknownKey k)
            end
        end.
Proof.
  intros m k r Hm Hk.
  assert (E : resolveKey (m ++ "+" ++ k) = resolveKey (m ++ "+" ++ k ++ "")).
  { now rewrite string_app_nil_r. }
  rewrite E, !(resolveKey_two_parts m k) by (assumption || (left; reflexivity) ||
                                               (right; exists r; reflexivity)).
  split; reflexivity.
Qed.

End ExtraStrings.



(** X8.  [close] runs the close-window script only when a truthy window id
    is cached, and on success clears session and window; when that script
    fails the error propagates and the session and window stay as they
    were. *)
Theorem close_spec :
  forall respond st,
    (truthy (windowId st) = false ->
       close respond st = (inr tt, mkSt None None (history st))) /\
    (truthy (windowId st) = true -> forall out,
       respond (history st) OsaClose = ExecOk out ->
       close respond st = (inr tt, mkSt None None (history st ++ [OsaClose]))) /\
    (truthy (windowId st) = true -> forall status err,
       respond (history st) OsaClose = ExecErr status err ->
       close respond st
         = (inl (ExecFailed status err),
            mkSt (currentSession st) (windowId st) (history st ++ [OsaClose]))).
Proof.
  intros respond st. unfold close.
  split; [|split]; intros T.
  - unfold_M. rewrite T. reflexivity.
  - intros out R. unfold_M. rewrite T. unfold exec. rewrite R. reflexivity.
  - intros status err R. unfold_M. rewrite T. unfold exec. rewrite R. reflexivity.
Qed.

(** X9.  [TerminalManager.typeText] activates Terminal, sends one keystroke
    command with the escaped text, and returns the text's length; if
    activation fails, the error propagates and nothing is typed. *)
Theorem managerTypeText_spec :
  forall respond text st,
    ((forall h c, exists out, respond h c = ExecOk out) ->
     managerTypeText respond text st
       = (inr (String.length text),
          mkSt (currentSession st) (windowId st)
               (history st ++ [OsaActivate; OsaKeystroke (escapeText text) None]))) /\
    (forall status err, respond (history st) OsaActivate = ExecErr status err ->
     managerTypeText respond text st
       = (inl (ExecFailed status err),
          mkSt (currentSession st) (windowId st) (history st ++ [OsaActivate]))).
Proof.
  intros respond text st. unfold managerTypeText, typeText. split.
  - intros Hok. destruct (Hok (history st) OsaActivate) as [o1 R1].
    destruct (Hok (history st ++ [OsaActivate]) (OsaKeystroke (escapeText text) None))
      as [o2 R2].
    unfold_M. unfold exec. rewrite R1. simpl. rewrite R2, <- app_assoc. reflexivity.
  - intros status err R. unfold_M. unfold exec. rewrite R. reflexivity.
Qed.

(** X10.  [createSession] opens a Terminal window attached to the session
    and records the session and [parseInt] of the script's answer as the
    window id, returning both; if the script fails, the error propagates
    and the recorded session and window are unchanged. *)
Theorem createSession_spec :
  forall respond sessionName st,
    (forall out, respond (history st) (OsaOpen sessionName) = ExecOk out ->
     createSession respond sessionName st
       = (inr (sessionName, parseInt (trim out)),
          mkSt (Some sessionName) (Some (parseInt (trim out)))
               (history st ++ [OsaOpen sessionName]))) /\
    (forall status err, respond (history st) (OsaOpen sessionName) = ExecErr status err ->
     createSession respond sessionName st
       = (inl (ExecFailed status err),
          mkSt (currentSession st) (windowId st) (history st ++ [OsaOpen sessionName]))).
Proof.
  intros respond sessionName st. unfold createSession, openTerminalWithSession.
  split; intros.
  - unfold_M. unfold exec. rewrite H. reflexivity.
  - unfold_M. unfold exec. rewrite H. reflexivity.
Qed.

(** X11.  When [zmx list] exits with status 1 or reports "no sessions
    found", [killAllSessions] kills nothing, returns 0 and clears the
    current session and window. *)
Theorem killAllSessions_empty :
  forall respond st,
    ((exists err, respond (history st) ZmxList = ExecErr 1 err) \/
     (exists out, respond (history st) ZmxList = ExecOk out /\
                  prefix "no sessions found" out = true)) ->
    killAllSessions respond st = (inr 0%nat, mkSt None None (history st ++ [ZmxList])).
Proof.
  intros respond st [[err R]|[out [R P]]];
    unfold killAllSessions, zmx_killAllSessions, zmx_listSessions; unfold_M; rewrite R.
  - reflexivity.
  - assert (E : parseListOutput out = []).
    { unfold parseListOutput. rewrite (no_sessions_prefix_trim out P). reflexivity. }
    rewrite E. reflexivity.
Qed.

Ltac run_world rs Hok :=
  repeat match goal with
  | H : String.eqb ?x EmptyString = _ |- context [String.eqb ?x EmptyString] =>
      rewrite H; cbn
  | |- context [String.eqb ?x EmptyString] =>
      let E := fresh "E" in destruct (String.eqb x EmptyString) eqn:E; cbn
  | |- context [rs ?h (ZmxKill ?s)] => destruct (rs h (ZmxKill s)); cbn
  | |- context [rs ?h ?c] =>
      let o := fresh "o" in let R := fresh "R" in
      destruct (Hok h c ltac:(intros ? ?; discriminate)) as [o R]; rewrite R; cbn
  end.

Lemma resolveKey_enter : resolveKey "enter" = inr (KeyCode 36).
Proof. reflexivity. Qed.

(** X12.  [restartTerminal(command)] with a non-empty command closes a
    cached truthy window, kills a non-empty current session (a failed kill
    is ignored), opens a new session named [poof-<now>], records it with
    its window, then types the escaped command and presses Enter (key
    code 36). *)
Theorem restartTerminal_with_command :
  forall respond nowMs command st,
    truthy_str command = true ->
    (forall h c, (forall s, c <> ZmxKill s) -> exists out, respond h c = ExecOk out) ->
    exists wid,
      restartTerminal respond nowMs (Some command) st
        = (inr (("poof-" ++ zToString nowMs)%string, wid),
           mkSt (Some ("poof-" ++ zToString nowMs)%string) (Some wid)
             (history st
              ++ (if truthy (windowId st) then [OsaClose] else [])
              ++ (match currentSession st with
                  | Some cur => if truthy_str cur then [ZmxKill cur] else []
                  | None => [] end)
              ++ [OsaOpen ("poof-" ++ zToString nowMs)%string;
                  OsaKeystroke (escapeText command) None; OsaKeyCode 36 None])).
Proof.
  intros respond nowMs command [cur0 win0 h0] Hc Hok.
  unfold restartTerminal, killSessionQuietly, zmx_killSession, openTerminalWithSession,
    typeText, sendKeystroke.
  rewrite resolveKey_enter. unfold truthy_str in *.
  apply negb_true_iff in Hc. rewrite Hc. unfold_M. unfold exec. cbn [windowId currentSession history].
  destruct (truthy win0) eqn:T; destruct cur0 as [cur|]; cbn.
  all: run_world respond Hok.
  all: eexists; rewrite <- ?app_assoc; reflexivity.
Qed.

(** X13.  [restartTerminal()] without a command, or with the empty one,
    closes a cached truthy window, kills a non-empty current session (a
    failed kill is ignored) and reopens a session under the same name, or
    [poof-<now>] when there is none; it types nothing. *)
Theorem restartTerminal_without_command :
  forall respond nowMs command st,
    (command = None \/ command = Some EmptyString) ->
    (forall h c, (forall s, c <> ZmxKill s) -> exists out, respond h c = ExecOk out) ->
    let sessionName :=
      match currentSession st with
      | Some cur => if truthy_str cur then cur else ("poof-" ++ zToString nowMs)%string
      | None => ("poof-" ++ zToString nowMs)%string
      end in
    exists wid,
      restartTerminal respond nowMs command st
        = (inr (sessionName, wid),
           mkSt (Some sessionName) (Some wid)
             (history st
              ++ (if truthy (windowId st) then [OsaClose] else [])
              ++ (match currentSession st with
                  | Some cur => if truthy_str cur then [ZmxKill cur] else []
                  | None => [] end)
              ++ [OsaOpen sessionName])).
Proof.
  intros respond nowMs command [cur0 win0 h0] Hc Hok sessionName.
  subst sessionName.
  unfold restartTerminal, killSessionQuietly, zmx_killSession, openTerminalWithSession.
  unfold truthy_str in *. unfold_M. unfold exec. cbn [windowId currentSession history].
  destruct Hc as [->| ->]; destruct (truthy win0) eqn:T; destruct cur0 as [cur|]; cbn.
  all: run_world respond Hok.
  all: eexists; rewrite <- ?app_assoc; reflexivity.
Qed.

Lemma fuel_start :
  forall timeoutMs,
    (Z.max (timeoutMs - 0) 0 + pollInterval <= pollInterval * Z.of_nat (S (Z.to_nat timeoutMs)))%Z.
Proof.
  intros timeoutMs. rewrite Nat2Z.inj_succ. unfold pollInterval.
  destruct (Z.leb_spec 0 timeoutMs).
  - rewrite Z2Nat.id by lia. lia.
  - destruct timeoutMs as [|p|p]; [lia|lia|]. rewrite Z2Nat.inj_neg. lia.
Qed.

Section StableSound.

Variables (screen : nat -> string) (startTime timeoutMs stableMs : Z).

Lemma stableLoop_sound :
  forall f c lastContent lastChangeTime,
    (Z.max (timeoutMs - (now c - startTime)) 0 + pollInterval
       <= pollInterval * Z.of_nat f)%Z ->
    (0 <= now c - startTime)%Z ->
    (startTime <= lastChangeTime)%Z ->
    match stableLoop screen f startTime timeoutMs stableMs lastContent lastChangeTime c with
    | Some ((true, e), c') =>
        e = (now c' - startTime)%Z /\ (stableMs <= e)%Z /\ (0 <= e < timeoutMs)%Z
    | Some ((false, e), c') => e = (now c' - startTime)%Z /\ (timeoutMs <= e)%Z
    | None => False
    end.
Proof.
  induction f as [|f IH]; intros c lc lt Hf Hel Hlt.
  - unfold pollInterval in Hf. simpl in Hf. lia.
  - cbn [stableLoop].
    destruct (Z.ltb_spec (now c - startTime) timeoutMs) as [Lt|Ge]; [|split; [reflexivity|lia]].
    unfold getScreenText. cbn [now reads].
    set (p := if String.eqb (screen (reads c)) lc then (lc, lt) else (screen (reads c), now c)).
    assert (Hp : (startTime <= snd p <= now c)%Z \/ snd p = lt).
    { subst p. destruct (String.eqb _ _); [right|left]; simpl; lia. }
    destruct p as [lc' lt'] eqn:E. simpl in Hp.
    destruct (Z.leb_spec stableMs (now c - lt')) as [Hs|Hs].
    + simpl. repeat split; lia.
    + apply IH.
      * rewrite busyWait_now. cbn [now]. unfold pollInterval in *.
        rewrite Nat2Z.inj_succ in Hf. lia.
      * rewrite busyWait_now. cbn [now]. unfold pollInterval. lia.
      * lia.
Qed.

Lemma stableLoop_always_changing :
  forall f c lastChangeTime k0,
    (forall j, (k0 <= j)%nat -> String.eqb (screen (S j)) (screen j) = false) ->
    (k0 < reads c)%nat ->
    (0 < stableMs)%Z ->
    (Z.max (timeoutMs - (now c - startTime)) 0 + pollInterval
       <= pollInterval * Z.of_nat f)%Z ->
    (0 <= now c - startTime)%Z ->
    exists e c',
      stableLoop screen f startTime timeoutMs stableMs (screen (pred (reads c)))
        lastChangeTime c = Some ((false, e), c') /\
      e = (now c' - startTime)%Z /\ (timeoutMs <= e)%Z.
Proof.
  induction f as [|f IH]; intros c lt k0 Hchg Hk Hs Hf Hel.
  - unfold pollInterval in Hf. simpl in Hf. lia.
  - cbn [stableLoop].
    destruct (Z.ltb_spec (now c - startTime) timeoutMs) as [Lt|Ge];
      [|eexists; eexists; split; [reflexivity | split; [reflexivity | lia]]].
    unfold getScreenText. cbn [now reads].
    destruct (reads c) as [|j] eqn:R; [lia|]. cbn [pred].
    rewrite (Hchg j ltac:(lia)).
    destruct (Z.leb_spec stableMs (now c - now c)) as [H|H]; [lia|].
    specialize (IH (busyWait (mkClock (now c) (S (S j)))) (now c) k0 Hchg).
    rewrite busyWait_reads in IH. cbn [reads pred] in IH.
    apply IH; [lia | exact Hs | |].
    + rewrite busyWait_now. cbn [now]. unfold pollInterval in *.
      rewrite Nat2Z.inj_succ in Hf. lia.
    + rewrite busyWait_now. cbn [now]. unfold pollInterval. lia.
Qed.

End StableSound.

(** X14.  [waitForStable] always returns.  It reports stable=true only
    before [timeoutMs] has elapsed and never before [stableMs], and
    stable=false only once [timeoutMs] has elapsed; the elapsed time is
    the clock at that point minus the start. *)
Theorem waitForStable_sound :
  forall screen timeoutMs stableMs c0,
    match waitForStable screen timeoutMs stableMs c0 with
    | Some ((true, e), c') =>
        e = (now c' - now c0)%Z /\ (stableMs <= e)%Z /\ (0 <= e < timeoutMs)%Z
    | Some ((false, e), c') => e = (now c' - now c0)%Z /\ (timeoutMs <= e)%Z
    | None => False
    end.
Proof.
  intros screen timeoutMs stableMs c0. unfold waitForStable, getScreenText.
  apply stableLoop_sound; cbn [now]; [|lia|lia].
  replace (now c0 - now c0)%Z with 0%Z by lia. apply fuel_start.
Qed.

(** X15.  If every sample differs from the one before it and [stableMs]
    is positive, [waitForStable] reports stable=false after at least
    [timeoutMs]. *)
Theorem waitForStable_always_changing :
  forall screen timeoutMs stableMs c0,
    (forall j, (reads c0 <= j)%nat -> String.eqb (screen (S j)) (screen j) = false) ->
    (0 < stableMs)%Z ->
    exists e c',
      waitForStable screen timeoutMs stableMs c0 = Some ((false, e), c') /\
      e = (now c' - now c0)%Z /\ (timeoutMs <= e)%Z.
Proof.
  intros screen timeoutMs stableMs c0 Hchg Hs. unfold waitForStable, getScreenText.
  change (screen (reads c0)) with (screen (pred (reads (mkClock (now c0) (S (reads c0)))))).
  apply (stableLoop_always_changing screen (now c0) timeoutMs stableMs _ _ _ (reads c0) Hchg);
    cbn [now reads]; [lia | exact Hs | | lia].
  replace (now c0 - now c0)%Z with 0%Z by lia. apply fuel_start.
Qed.

(** X16.  With [timeoutMs <= 0], [waitForText] reports not found after 0 ms
    without reading the screen, and [waitForStable] reports not stable
    after 0 ms having read it once.  With a positive timeout,
    [waitForText] on the empty text reports found after 0 ms and one
    read. *)
Theorem waits_edge_cases :
  forall screen text timeoutMs stableMs c0,
    ((timeoutMs <= 0)%Z ->
       waitForText screen text timeoutMs c0 = Some ((false, 0%Z), c0) /\
       waitForStable screen timeoutMs stableMs c0
         = Some ((false, 0%Z), mkClock (now c0) (S (reads c0)))) /\
    ((0 < timeoutMs)%Z ->
       waitForText screen EmptyString timeoutMs c0
         = Some ((true, 0%Z), mkClock (now c0) (S (reads c0)))).
Proof.
  intros screen text timeoutMs stableMs c0. split.
  - intros Ht. unfold waitForText, waitForStable, getScreenText. cbn [textLoop stableLoop now reads].
    rewrite Z.sub_diag. destruct (Z.ltb_spec 0 timeoutMs); [lia|]. split; reflexivity.
  - intros Ht. unfold waitForText, getScreenText. cbn [textLoop now reads].
    rewrite Z.sub_diag. destruct (Z.ltb_spec 0 timeoutMs); [|lia].
    unfold getScreenText. cbn [now reads]. rewrite Z.sub_diag.
    destruct (screen (reads c0)); reflexivity.
Qed.

(* ------------------------------------------------------------------ *)
(** ** Witnesses of the further properties *)

Lemma resolveKey_modifier_parts_witness :
  includes "ctrl" "+" = false /\ includes "shift" "+" = false /\
  includes "constructor" "+" = false /\
  resolveKey "ctrl+shift+a" = inl (UnknownKey "shift") /\
  resolveKey "ctrl+constructor"
    = inr (KeyCodeInheritedMod "function Object() { [native code] }" ModControl).
Proof.
  assert (H1 : includes "ctrl" "+" = false) by reflexivity.
  assert (H2 : includes "shift" "+" = false) by reflexivity.
  assert (H3 : includes "constructor" "+" = false) by reflexivity.
  destruct (resolveKey_modifier_parts "ctrl" "shift" "a" H1 H2) as [E1 E2].
  destruct (resolveKey_modifier_parts "ctrl" "constructor" "" H1 H3) as [_ E3].
  split; [exact H1 | split; [exact H2 | split; [exact H3 | split]]].
  - change "ctrl+shift+a"%string with ("ctrl" ++ "+" ++ "shift" ++ "+" ++ "a")%string.
    rewrite E1, E2. reflexivity.
  - change "ctrl+constructor"%string with ("ctrl" ++ "+" ++ "constructor")%string.
    rewrite E3. reflexivity.
Defined.

Lemma modified_char_unescaped_witness :
  includes "ctrl" "+" = false /\ dq <> plus_char /\
  modifierClause (toLowerCase "ctrl") = Some ModControl /\
  resolveKey ("ctrl" ++ "+" ++ String dq "") = inr (KeystrokeMod (String dq "") ModControl) /\
  decodeLiteral (String dq (String dq "")) <> Some (String dq "", ""%string).
Proof.
  assert (H1 : includes "ctrl" "+" = false) by reflexivity.
  assert (H2 : dq <> plus_char) by discriminate.
  assert (H3 : modifierClause (toLowerCase "ctrl") = Some ModControl) by reflexivity.
  destruct (modified_char_unescaped "ctrl" dq ModControl "" H1 H2 H3) as [Hr Hiff].
  split; [exact H1 | split; [exact H2 | split; [exact H3 | split; [exact Hr |]]]].
  intros H. apply Hiff in H. destruct H as [H _]. apply H. reflexivity.
Defined.

Lemma parseListOutput_blank_line_witness :
  parseListOutput ("session_name=a" ++ String newline ("  " ++ String newline "session_name=b"))
    = [parseLine "session_name=a"; mkSession "" None None; parseLine "session_name=b"]%string.
Proof.
  apply parseListOutput_blank_line;
    try discriminate; try reflexivity; repeat (constructor || discriminate).
Defined.

Lemma parseLine_standard_witness :
  (parseDigits "123" <= 9007199254740992)%Z /\
  parseLine ("session_name=" ++ "dev" ++ "    " ++ "pid=" ++ "123" ++ "       "
             ++ "clients=" ++ "2")
    = mkSession "dev" (Some (parseDigits "123")) (Some (parseDigits "2")).
Proof.
  assert (B1 : (parseDigits "123" <= 9007199254740992)%Z) by (vm_compute; discriminate).
  assert (B2 : (parseDigits "2" <= 9007199254740992)%Z) by (vm_compute; discriminate).
  split; [exact B1|].
  apply parseLine_standard;
    try exact B1; try exact B2; try discriminate; repeat (constructor || discriminate).
Defined.


Lemma killAllSessions_empty_witness :
  killAllSessions noSessionsWorld devState
    = (inr 0%nat, mkSt None None [OsaOpen "dev"; ZmxList]%string).
Proof.
  apply (killAllSessions_empty noSessionsWorld devState).
  right. exists "no sessions found"%string. split; reflexivity.
Defined.

Lemma restartTerminal_with_command_witness :
  exists wid,
    restartTerminal deadSessionWorld 1700000000000 (Some "ls"%string) devState
      = (inr (("poof-" ++ zToString 1700000000000)%string, wid),
         mkSt (Some ("poof-" ++ zToString 1700000000000)%string) (Some wid)
           (history devState
            ++ (if truthy (windowId devState) then [OsaClose] else [])
            ++ (match currentSession devState with
                | Some cur => if truthy_str cur then [ZmxKill cur] else []
                | None => [] end)
            ++ [OsaOpen ("poof-" ++ zToString 1700000000000)%string;
                OsaKeystroke (escapeText "ls") None; OsaKeyCode 36 None])).
Proof.
  apply restartTerminal_with_command; [reflexivity|].
  intros h [] Hc; try (exfalso; eapply Hc; reflexivity); eexists; reflexivity.
Defined.

Lemma restartTerminal_without_command_witness :
  exists wid,
    restartTerminal deadSessionWorld 1700000000000 None devState
      = (inr ("dev"%string, wid),
         mkSt (Some "dev"%string) (Some wid) [OsaOpen "dev"; OsaClose; ZmxKill "dev"; OsaOpen "dev"]%string).
Proof.
  apply (restartTerminal_without_command deadSessionWorld 1700000000000 None devState).
  - left. reflexivity.
  - intros h [] Hc; try (exfalso; eapply Hc; reflexivity); eexists; reflexivity.
Defined.

Lemma waitForStable_always_changing_witness :
  exists e c',
    waitForStable flickerScreen 1000 500 (mkClock 0 0) = Some ((false, e), c') /\
    e = (now c' - now (mkClock 0 0))%Z /\ (1000 <= e)%Z.
Proof.
  apply waitForStable_always_changing; [|reflexivity].
  intros j _. unfold flickerScreen. rewrite Nat.even_succ, <- Nat.negb_even.
  destruct (Nat.even j); reflexivity.
Defined.
